(** * EIP-712 authorisation helpers of the synapse SDK

    A shallow embedding of
    - [utils/eip712.ts]  (the schema registry and [getEIP712TypeString]),
    - [pdp/auth.ts]      ([PDPAuthHelper] and its four signing operations),
    - [session/key.ts]   ([SessionKey.fetchExpiries]),
    together with the properties the specification states about them.

    JavaScript exceptions are values of [Result]; asynchronous calls are
    sequenced in a state-and-error monad whose state is the trace of the
    interactions with the outside world (console, signer, provider). *)

From Stdlib Require Import ZArith String Ascii List Lia Bool.
From stdpp Require Import base option strings list gmap.

Set Warnings "-register-all".

Local Open Scope string_scope.
Local Open Scope list_scope.

(** ** JavaScript values shared by the three files *)

(** The exceptions the code can raise: [new Error(msg)] and the two
    built-in subclasses the runtime itself raises. *)
Inductive JsError : Type :=
| Error (msg : string)
| TypeError (msg : string)
| RangeError (msg : string).

Inductive Result (A : Type) : Type :=
| Return (a : A)
| Throw (e : JsError).
Arguments Return {A} a.
Arguments Throw {A} e.

(** [String.prototype.endsWith] and [String.prototype.slice(0, -k)]. *)
Definition endsWith (s suffix : string) : bool :=
  let n := String.length s in
  let k := String.length suffix in
  (k <=? n)%nat && String.eqb (substring (n - k) k s) suffix.

Definition slice_0_neg (k : nat) (s : string) : string :=
  substring 0 (String.length s - k) s.

(** [Array.prototype.join]. *)
Definition join (sep : string) (l : list string) : string := String.concat sep l.

(** ** utils/eip712.ts *)

Module Eip712.

Record TypeField : Type := { name : string; type : string }.

(** The registry, in the order its keys are written in the source. *)
Definition EIP712_TYPES : list (string * list TypeField) :=
  [ ("MetadataEntry",
      [ {| name := "key"; type := "string" |};
        {| name := "value"; type := "string" |} ]);
    ("CreateDataSet",
      [ {| name := "clientDataSetId"; type := "uint256" |};
        {| name := "payee"; type := "address" |};
        {| name := "metadata"; type := "MetadataEntry[]" |} ]);
    ("Cid", [ {| name := "data"; type := "bytes" |} ]);
    ("PieceMetadata",
      [ {| name := "pieceIndex"; type := "uint256" |};
        {| name := "metadata"; type := "MetadataEntry[]" |} ]);
    ("AddPieces",
      [ {| name := "clientDataSetId"; type := "uint256" |};
        {| name := "firstAdded"; type := "uint256" |};
        {| name := "pieceData"; type := "Cid[]" |};
        {| name := "pieceMetadata"; type := "PieceMetadata[]" |} ]);
    ("SchedulePieceRemovals",
      [ {| name := "clientDataSetId"; type := "uint256" |};
        {| name := "pieceIds"; type := "uint256[]" |} ]);
    ("DeleteDataSet", [ {| name := "clientDataSetId"; type := "uint256" |} ]) ].

(** [EIP712_TYPES] is an object literal, so its prototype is
    [Object.prototype]: these property names are found by the [in]
    operator and by a property read although they are no schema. None of
    the inherited values is an array (all are functions, [__proto__] is
    [Object.prototype] itself). *)
Definition Object_prototype : list string :=
  [ "constructor"; "__defineGetter__"; "__defineSetter__"; "hasOwnProperty";
    "__lookupGetter__"; "__lookupSetter__"; "isPrototypeOf";
    "propertyIsEnumerable"; "toString"; "valueOf"; "__proto__";
    "toLocaleString" ].

Fixpoint assoc {A} (k : string) (l : list (string * A)) : option A :=
  match l with
  | [] => None
  | (k', v) :: l' => if String.eqb k k' then Some v else assoc k l'
  end.

Definition mem (k : string) (l : list string) : bool :=
  existsb (String.eqb k) l.

(** What [EIP712_TYPES[k]] evaluates to. *)
Inductive Property : Type :=
| Schema (args : list TypeField)
| Inherited
| Undefined.

Definition get_property (k : string) : Property :=
  match assoc k EIP712_TYPES with
  | Some args => Schema args
  | None => if mem k Object_prototype then Inherited else Undefined
  end.

(** [k in EIP712_TYPES]: own and inherited properties. *)
Definition in_EIP712_TYPES (k : string) : bool :=
  match get_property k with Undefined => false | _ => true end.

(** [k] is one of the seven keys of the registry. *)
Definition is_key (k : string) : bool := mem k (map fst EIP712_TYPES).

(** *** [Map<string, string>]: insertion-ordered *)

Definition Map : Type := list (string * string).

Definition Map_has (m : Map) (k : string) : bool := mem k (map fst m).
Definition Map_get (m : Map) (k : string) : option string := assoc k m.

Fixpoint Map_set (m : Map) (k v : string) : Map :=
  match m with
  | [] => [(k, v)]
  | (k', v') :: m' =>
      if String.eqb k k' then (k, v) :: m' else (k', v') :: Map_set m' k v
  end.

(** *** [String.prototype.localeCompare] on type names

    The registry's keys are ASCII letters; on those the default collation
    orders by letter regardless of case and breaks ties by putting the
    lower-case letter first. *)

Definition is_upper (c : ascii) : bool :=
  let n := nat_of_ascii c in (65 <=? n)%nat && (n <=? 90)%nat.

Definition fold_case (c : ascii) : nat :=
  let n := nat_of_ascii c in if is_upper c then (n + 32)%nat else n.

Fixpoint compare_by (key : ascii -> nat) (a b : string) : comparison :=
  match a, b with
  | EmptyString, EmptyString => Eq
  | EmptyString, String _ _ => Lt
  | String _ _, EmptyString => Gt
  | String x a', String y b' =>
      match Nat.compare (key x) (key y) with
      | Eq => compare_by key a' b'
      | c => c
      end
  end.

Definition case_key (c : ascii) : nat := if is_upper c then 1%nat else 0%nat.

Definition localeCompare (a b : string) : Z :=
  match compare_by fold_case a b with
  | Lt => (-1)%Z
  | Gt => 1%Z
  | Eq => match compare_by case_key a b with
          | Lt => (-1)%Z
          | Gt => 1%Z
          | Eq => 0%Z
          end
  end.

(** *** [Array.prototype.sort]: a stable sort by a comparator *)

Section Sort.
Context {A : Type} (cmp : A -> A -> Z).

Fixpoint insert_sorted (x : A) (l : list A) : list A :=
  match l with
  | [] => [x]
  | y :: l' =>
      if (cmp x y <? 0)%Z then x :: y :: l' else y :: insert_sorted x l'
  end.

Definition sort (l : list A) : list A :=
  fold_left (fun acc x => insert_sorted x acc) l [].
End Sort.

(** *** [getEIP712TypeString] *)

Definition baseType_of (arg : TypeField) : string :=
  if endsWith (type arg) "[]" then slice_0_neg 2 (type arg) else type arg.

Definition argString (arg : TypeField) : string :=
  type arg +:+ " " +:+ name arg.

(** The loop [for (const arg of args) collectType(baseType)] over a given
    [collectType]; it stops at the first call that does not return. *)
Section ForOf.
Context (collectType : string -> Map -> option (Result Map)).

Fixpoint for_of (args : list TypeField) (typeMap : Map) : option (Result Map) :=
  match args with
  | [] => Some (Return typeMap)
  | arg :: rest =>
      match collectType (baseType_of arg) typeMap with
      | Some (Return typeMap') => for_of rest typeMap'
      | other => other
      end
  end.
End ForOf.

(** One type's own fragment, [Name(type0 name0,type1 name1,...)]. *)
Definition fragment (typeName : string) (args : list TypeField) : string :=
  let argStrings := join "," (map argString args) in
  typeName +:+ "(" +:+ argStrings +:+ ")".

(** The fragment of a key of the registry. *)
Definition fragment_of (typeName : string) : string :=
  match assoc typeName EIP712_TYPES with
  | Some args => fragment typeName args
  | None => ""
  end.

(** The closure [collectType]; it updates [typeMap], which is threaded
    here. [fuel] bounds the depth of the recursion; [None] is only
    returned when it runs out. *)
Fixpoint collectType (fuel : nat) (typeName : string) (typeMap : Map)
  : option (Result Map) :=
  match fuel with
  | O => None
  | S fuel' =>
      if Map_has typeMap typeName || negb (in_EIP712_TYPES typeName)
      then Some (Return typeMap)
      else
        match get_property typeName with
        | Schema args =>
            let typeMap := Map_set typeMap typeName (fragment typeName args) in
            for_of (collectType fuel') args typeMap
        | _ => Some (Throw (TypeError "args.map is not a function"))
        end
  end.

Definition SchemaNotFound (rootType : string) : JsError :=
  Error ("Type '" +:+ rootType +:+ "' does not exist in EIP712_TYPES").

Definition getEIP712TypeString_fuel (fuel : nat) (rootType : string)
  : option (Result string) :=
  if negb (in_EIP712_TYPES rootType)
  then Some (Throw (SchemaNotFound rootType))
  else
    match collectType fuel rootType [] with
    | None => None
    | Some (Throw e) => Some (Throw e)
    | Some (Return typeMap) =>
        match Map_get typeMap rootType with
        | None => Some (Throw (Error ("Failed to build type string for " +:+ rootType)))
        | Some rootString =>
            let otherStrings :=
              join ""
                (map snd
                   (sort (fun x y => localeCompare (fst x) (fst y))
                      (List.filter (fun e => negb (String.eqb (fst e) rootType))
                         typeMap))) in
            Some (Return (rootString +:+ otherStrings))
        end
    end.

(** Every activation of [collectType] that recurses has added a new key of
    the registry to [typeMap], so the recursion is never deeper than the
    number of keys plus the one activation that returns at once. *)
Definition depth : nat := S (List.length EIP712_TYPES).

Definition getEIP712TypeString (rootType : string) : option (Result string) :=
  getEIP712TypeString_fuel depth rootType.

End Eip712.


(** ** Values, numbers and the world outside *)

(** A JavaScript [number]. Floating point is outside this development: a
    number is either integral, carrying its value, or anything else (a
    fraction, [NaN], an infinity). *)
Inductive number : Type :=
| Integer (z : Z)
| NonInteger.

(** The argument type [number | bigint]. *)
Inductive NumberOrBigint : Type :=
| OfNumber (n : number)
| OfBigint (z : Z).

(** The global function [BigInt]. *)
Definition BigInt (x : NumberOrBigint) : Result Z :=
  match x with
  | OfBigint z => Return z
  | OfNumber (Integer z) => Return z
  | OfNumber NonInteger =>
      Throw (RangeError "The number cannot be converted to a BigInt because it is not an integer")
  end.

Definition Uint8Array : Type := list Byte.byte.

(** Object literals and arrays as the code builds them; the properties of an
    object are kept in the order they are written. *)
Inductive JsValue : Type :=
| VBigint (z : Z)
| VNumber (n : number)
| VString (s : string)
| VBytes (b : Uint8Array)
| VUndefined
| VArray (items : list JsValue)
| VObject (props : list (string * JsValue)).

Definition Types : Type := list (string * list Eip712.TypeField).

Record TypedDataDomain : Type := {
  domain_name : string;
  version : string;
  chainId : number;
  verifyingContract : string
}.

(** The document handed to [eth_signTypedData_v4]. *)
Record TypedData : Type := {
  types : Types;
  primaryType : string;
  domain : TypedDataDomain;
  message : JsValue
}.

Record Signature : Type := { sig_v : Z; sig_r : string; sig_s : string }.

(** The functions of the [ethers] library and of the runtime that the code
    calls and that are not part of it. *)
Class Ethers : Type := {
  (** [ethers.TypedDataEncoder.hash] *)
  TypedDataEncoder_hash : TypedDataDomain -> Types -> JsValue -> Result string;
  (** [ethers.Signature.from] *)
  Signature_from : string -> Result Signature;
  (** [ethers.hexlify] *)
  hexlify : Uint8Array -> string;
  (** [Number.prototype.toString] and [BigInt.prototype.toString] *)
  number_toString : number -> string;
  bigint_toString : Z -> string;
  (** [piece/index.ts]: [asPieceCID], [None] for [null] *)
  asPieceCID : string -> option Uint8Array;
  (** is [globalThis.window?.ethereum] set *)
  window_ethereum : bool
}.

(** What the program does to the world, in order. *)
Inductive Event : Type :=
| console_log (msg : string)
| signTypedData_called (d : TypedDataDomain) (t : Types) (v : JsValue)
| request_called (method address : string) (doc : TypedData)
| send_called (method address : string) (doc : TypedData).

Definition Trace : Type := list Event.

(** Asynchronous code: a trace transformer that returns or throws. *)
Definition M (A : Type) : Type := Trace -> Result A * Trace.

Definition ret {A} (a : A) : M A := fun t => (Return a, t).
Definition throw {A} (e : JsError) : M A := fun t => (Throw e, t).
Definition bind {A B} (m : M A) (k : A -> M B) : M B :=
  fun t => match m t with
           | (Return a, t') => k a t'
           | (Throw e, t') => (Throw e, t')
           end.
Definition lift {A} (r : Result A) : M A := fun t => (r, t).
Definition emit (e : Event) : M unit := fun t => (Return tt, t ++ [e]).

Notation "'let*' x := m 'in' k" := (bind m (fun x => k))
  (at level 10, x name, m at level 100, k at level 200).
Notation "'do' m 'then' k" := (bind m (fun _ => k))
  (at level 10, m at level 100, k at level 200).

(** ** pdp/auth.ts *)

Module Auth.

Record MetadataEntry : Type := { key : string; value : string }.

(** An element of [PieceCID[] | string[]]; a parsed identifier is known
    here by its [bytes]. *)
Inductive Piece : Type :=
| PieceString (s : string)
| PieceCID (bytes : Uint8Array).

(** A JSON-RPC entry point: method, signer address, document; the agent
    answers with a signature or declines. *)
Definition Rpc : Type := string -> string -> TypedData -> Result string.

(** An [ethers.Provider], by the properties the code probes. A property
    that is [None] is absent; [_eip1193Provider] may be present and null. *)
Record Eip1193Provider : Type := { eip1193_request : option Rpc }.

Record Provider : Type := {
  _eip1193Provider : option (option Eip1193Provider);
  request : option Rpc;
  send : option Rpc
}.

(** An [ethers.Signer], by the properties the code probes. *)
Inductive Signer : Type := Build_Signer {
  constructor_name : string;
  inner_signer : option Signer;  (* the property [signer] *)
  signingKey : bool;             (* ['signingKey' in signer] *)
  provider : option Provider;
  getAddress : Result string;
  signTypedData : TypedDataDomain -> Types -> JsValue -> Result string
}.

Record PDPAuthHelper : Type := {
  signer : Signer;
  payer : Signer;
  this_domain : TypedDataDomain
}.

(** [Number(chainId)], exact for the chain identifiers in use. *)
Definition new_PDPAuthHelper (serviceContractAddress : string) (signer : Signer)
  (chainId : Z) (payer : option Signer) : PDPAuthHelper :=
  {| signer := signer;
     payer := match payer with Some p => p | None => signer end;
     this_domain := {| domain_name := "FilecoinWarmStorageService";
                       version := "1";
                       chainId := Integer chainId;
                       verifyingContract := serviceContractAddress |} |}.

Definition getUnderlyingSigner (this : PDPAuthHelper) : Signer :=
  match inner_signer (signer this) with
  | Some s =>
      if String.eqb (constructor_name (signer this)) "NonceManager"
      then s else signer this
  | None => signer this
  end.

Definition schema (k : string) : list Eip712.TypeField :=
  match Eip712.assoc k Eip712.EIP712_TYPES with Some f => f | None => [] end.

Section WithEthers.
Context `{Ethers}.

(** No property read in the [try] block can throw on a [Signer] of the shape
    above, so the [catch] branch is not reachable and is left out. *)
Definition isMetaMaskSigner (this : PDPAuthHelper) : M bool :=
  let actualSigner := getUnderlyingSigner this in
  do emit (console_log "[PDPAuthHelper] Checking signer type:") then
  if signingKey actualSigner then
    do emit (console_log "[PDPAuthHelper] Detected Wallet (has signingKey) - using local signing") then
    ret false
  else
    match provider actualSigner with
    | None =>
        do emit (console_log "[PDPAuthHelper] No provider - using local signing") then
        ret false
    | Some provider =>
        if bool_decide (is_Some (_eip1193Provider provider)) then
          do emit (console_log "[PDPAuthHelper] Detected BrowserProvider - using MetaMask signing") then
          ret true
        else if signingKey actualSigner then
          do emit (console_log "[PDPAuthHelper] Wallet with JsonRpcProvider - using local signing") then
          ret false
        else if window_ethereum then
          do emit (console_log "[PDPAuthHelper] window.ethereum detected - using MetaMask signing") then
          ret true
        else if (bool_decide (is_Some (send provider))
                 || bool_decide (is_Some (request provider)))
                && negb (signingKey actualSigner) then
          do emit (console_log "[PDPAuthHelper] Provider with send/request but not Wallet - using MetaMask signing") then
          ret true
        else
          do emit (console_log "[PDPAuthHelper] Default - using local signing") then
          ret false
    end.

Definition EIP712Domain : list Eip712.TypeField :=
  [ {| Eip712.name := "name"; Eip712.type := "string" |};
    {| Eip712.name := "version"; Eip712.type := "string" |};
    {| Eip712.name := "chainId"; Eip712.type := "uint256" |};
    {| Eip712.name := "verifyingContract"; Eip712.type := "address" |} ].

(** The first key of [types] that is neither [Cid] nor [PieceData]. *)
Fixpoint find_primaryType (keys : list string) : string :=
  match keys with
  | [] => ""
  | typeName :: rest =>
      if negb (String.eqb typeName "Cid") && negb (String.eqb typeName "PieceData")
      then typeName else find_primaryType rest
  end.

Definition not_a_function {A} (what : string) : M A :=
  throw (TypeError (what +:+ " is not a function")).

(** [JSON.stringify(typedData)] is kept as the document itself. *)
Definition signWithMetaMask (this : PDPAuthHelper) (types : Types)
  (value : JsValue) : M string :=
  match provider (signer this) with
  | None => throw (Error "No provider available")
  | Some provider =>
      let* signerAddress := lift (getAddress (signer this)) in
      let primaryType := find_primaryType (map fst types) in
      let typedData :=
        {| types := ("EIP712Domain", EIP712Domain) :: types;
           primaryType := primaryType;
           domain := this_domain this;
           message := value |} in
      let eip1193Provider : option Eip1193Provider :=
        match _eip1193Provider provider with
        | Some p => p
        | None => Some {| eip1193_request := request provider |}
        end in
      match eip1193Provider with
      | Some {| eip1193_request := Some request |} =>
          do emit (request_called "eth_signTypedData_v4" signerAddress typedData) then
          lift (request "eth_signTypedData_v4" signerAddress typedData)
      | _ =>
          match send provider with
          | Some send =>
              do emit (send_called "eth_signTypedData_v4" signerAddress typedData) then
              lift (send "eth_signTypedData_v4" signerAddress typedData)
          | None => not_a_function "provider.send"
          end
      end
  end.

(** [actualSigner.signTypedData(this.domain, types, value)] *)
Definition call_signTypedData (this : PDPAuthHelper) (types : Types)
  (value : JsValue) : M string :=
  do emit (signTypedData_called (this_domain this) types value) then
  lift (signTypedData (getUnderlyingSigner this) (this_domain this) types value).

Definition toString (x : NumberOrBigint) : string :=
  match x with
  | OfNumber n => number_toString n
  | OfBigint z => bigint_toString z
  end.

Record AuthSignature : Type := {
  signature : string;
  v : Z;
  r : string;
  s : string;
  signedData : string
}.

Definition of_MetadataEntry (e : MetadataEntry) : JsValue :=
  VObject [ ("key", VString (key e)); ("value", VString (value e)) ].

Definition of_metadata (metadata : list MetadataEntry) : JsValue :=
  VArray (map of_MetadataEntry metadata).

(** *** The four signing operations *)

Definition types_CreateDataSet : Types :=
  [ ("CreateDataSet", schema "CreateDataSet");
    ("MetadataEntry", schema "MetadataEntry") ].

Definition signCreateDataSet (this : PDPAuthHelper)
  (clientDataSetId : NumberOrBigint) (payee : string)
  (metadata : option (list MetadataEntry)) : M AuthSignature :=
  let metadata := default [] metadata in
  let types := types_CreateDataSet in
  let* useMetaMask := isMetaMaskSigner this in
  let* signature :=
    (if useMetaMask : bool then
       let value :=
         VObject [ ("clientDataSetId", VString (toString clientDataSetId));
                   ("metadata", of_metadata metadata);
                   ("payee", VString payee) ] in
       signWithMetaMask this types value
     else
       let* id := lift (BigInt clientDataSetId) in
       let value :=
         VObject [ ("clientDataSetId", VBigint id);
                   ("metadata", of_metadata metadata);
                   ("payee", VString payee) ] in
       call_signTypedData this types value) in
  let* sig := lift (Signature_from signature) in
  let* id := lift (BigInt clientDataSetId) in
  let* signedData :=
    lift (TypedDataEncoder_hash (this_domain this) types
            (VObject [ ("clientDataSetId", VBigint id);
                       ("metadata", of_metadata metadata);
                       ("payee", VString payee) ])) in
  ret {| signature := signature; v := sig_v sig; r := sig_r sig; s := sig_s sig;
         signedData := signedData |}.

Record Cid : Type := { data : Uint8Array }.

(** [metadata] is what [metadata[i]] evaluated to, [None] for
    [undefined]. *)
Record PieceMetadata : Type := {
  pieceIndex : nat;
  metadata : option (list MetadataEntry)
}.

Definition InvalidArgument : JsError :=
  Error "metadata length must match pieceDataArray length".

(** [String(pieceCid)] of a null [pieceCid] is ["null"]. *)
Definition InvalidPieceIdentifier : JsError := Error "Invalid PieceCID: null".

(** Lines 318-323: the default and the length check. An omitted argument
    ([None]) takes the default value [[]]. *)
Definition check_metadata (pieceDataArray : list Piece)
  (metadata : option (list (list MetadataEntry)))
  : Result (list (list MetadataEntry)) :=
  let metadata := default [] metadata in
  if (length metadata =? 0)%nat then
    Return (replicate (length pieceDataArray) [])
  else if negb (length metadata =? length pieceDataArray)%nat then
    Throw InvalidArgument
  else Return metadata.

(** Lines 329-344: the loop over [pieceDataArray], entered at index [i] with
    the pieces from [i] on and the two arrays built so far. *)
Fixpoint for_pieces (metadata : list (list MetadataEntry)) (i : nat)
  (pieces : list Piece) (formattedPieceData : list Cid)
  (pieceMetadata : list PieceMetadata)
  : Result (list Cid * list PieceMetadata) :=
  match pieces with
  | [] => Return (formattedPieceData, pieceMetadata)
  | piece :: rest =>
      let pieceCid :=
        match piece with
        | PieceString s => asPieceCID s
        | PieceCID bytes => Some bytes
        end in
      match pieceCid with
      | None => Throw InvalidPieceIdentifier
      | Some bytes =>
          for_pieces metadata (S i) rest
            (formattedPieceData ++ [ {| data := bytes |} ])
            (pieceMetadata ++ [ {| pieceIndex := i; metadata := metadata !! i |} ])
      end
  end.

(** Lines 318-344: everything [signAddPieces] does before it signs. *)
Definition build_AddPieces (pieceDataArray : list Piece)
  (metadata : option (list (list MetadataEntry)))
  : Result (list Cid * list PieceMetadata) :=
  match check_metadata pieceDataArray metadata with
  | Throw e => Throw e
  | Return metadata => for_pieces metadata 0 pieceDataArray [] []
  end.

Definition types_AddPieces : Types :=
  [ ("AddPieces", schema "AddPieces");
    ("Cid", schema "Cid");
    ("PieceMetadata", schema "PieceMetadata");
    ("MetadataEntry", schema "MetadataEntry") ].

Definition of_PieceMetadata (p : PieceMetadata) : JsValue :=
  VObject [ ("pieceIndex", VNumber (Integer (Z.of_nat (pieceIndex p))));
            ("metadata", match metadata p with
                         | Some m => of_metadata m
                         | None => VUndefined
                         end) ].

Definition of_Cid (c : Cid) : JsValue := VObject [ ("data", VBytes (data c)) ].

Definition signAddPieces (this : PDPAuthHelper)
  (clientDataSetId firstPieceId : NumberOrBigint)
  (pieceDataArray : list Piece)
  (metadata : option (list (list MetadataEntry))) : M AuthSignature :=
  let* built := lift (build_AddPieces pieceDataArray metadata) in
  let formattedPieceData := fst built in
  let pieceMetadata := snd built in
  let types := types_AddPieces in
  let* useMetaMask := isMetaMaskSigner this in
  let* signature :=
    (if useMetaMask : bool then
       let value :=
         VObject [ ("clientDataSetId", VString (toString clientDataSetId));
                   ("firstAdded", VString (toString firstPieceId));
                   ("pieceData",
                     VArray (map (fun item =>
                                    VObject [ ("data", VString (hexlify (data item))) ])
                               formattedPieceData));
                   ("pieceMetadata", VArray (map of_PieceMetadata pieceMetadata)) ] in
       signWithMetaMask this types value
     else
       let* id := lift (BigInt clientDataSetId) in
       let* first := lift (BigInt firstPieceId) in
       let value :=
         VObject [ ("clientDataSetId", VBigint id);
                   ("firstAdded", VBigint first);
                   ("pieceData", VArray (map of_Cid formattedPieceData));
                   ("pieceMetadata", VArray (map of_PieceMetadata pieceMetadata)) ] in
       call_signTypedData this types value) in
  let* sig := lift (Signature_from signature) in
  let* id := lift (BigInt clientDataSetId) in
  let* first := lift (BigInt firstPieceId) in
  let* signedData :=
    lift (TypedDataEncoder_hash (this_domain this) types
            (VObject [ ("clientDataSetId", VBigint id);
                       ("firstAdded", VBigint first);
                       ("pieceData", VArray (map of_Cid formattedPieceData));
                       ("pieceMetadata", VArray (map of_PieceMetadata pieceMetadata)) ])) in
  ret {| signature := signature; v := sig_v sig; r := sig_r sig; s := sig_s sig;
         signedData := signedData |}.

(** [pieceIds.map((id) => BigInt(id))] *)
Fixpoint map_BigInt (pieceIds : list NumberOrBigint) : Result (list Z) :=
  match pieceIds with
  | [] => Return []
  | id :: rest =>
      match BigInt id with
      | Throw e => Throw e
      | Return z =>
          match map_BigInt rest with
          | Throw e => Throw e
          | Return zs => Return (z :: zs)
          end
      end
  end.

Definition types_SchedulePieceRemovals : Types :=
  [ ("SchedulePieceRemovals", schema "SchedulePieceRemovals") ].

Definition signSchedulePieceRemovals (this : PDPAuthHelper)
  (clientDataSetId : NumberOrBigint) (pieceIds : list NumberOrBigint)
  : M AuthSignature :=
  let* pieceIdsBigInt := lift (map_BigInt pieceIds) in
  let* useMetaMask := isMetaMaskSigner this in
  let* signature :=
    (if useMetaMask : bool then
       let value :=
         VObject [ ("clientDataSetId", VString (toString clientDataSetId));
                   ("pieceIds",
                     VArray (map (fun id => VString (bigint_toString id))
                               pieceIdsBigInt)) ] in
       signWithMetaMask this types_SchedulePieceRemovals value
     else
       let* id := lift (BigInt clientDataSetId) in
       let value :=
         VObject [ ("clientDataSetId", VBigint id);
                   ("pieceIds", VArray (map VBigint pieceIdsBigInt)) ] in
       call_signTypedData this types_SchedulePieceRemovals value) in
  let* sig := lift (Signature_from signature) in
  let* id := lift (BigInt clientDataSetId) in
  let* signedData :=
    lift (TypedDataEncoder_hash (this_domain this) types_SchedulePieceRemovals
            (VObject [ ("clientDataSetId", VBigint id);
                       ("pieceIds", VArray (map VBigint pieceIdsBigInt)) ])) in
  ret {| signature := signature; v := sig_v sig; r := sig_r sig; s := sig_s sig;
         signedData := signedData |}.

Definition types_DeleteDataSet : Types :=
  [ ("DeleteDataSet", schema "DeleteDataSet") ].

Definition signDeleteDataSet (this : PDPAuthHelper)
  (clientDataSetId : NumberOrBigint) : M AuthSignature :=
  let* useMetaMask := isMetaMaskSigner this in
  let* signature :=
    (if useMetaMask : bool then
       let value :=
         VObject [ ("clientDataSetId", VString (toString clientDataSetId)) ] in
       signWithMetaMask this types_DeleteDataSet value
     else
       let* id := lift (BigInt clientDataSetId) in
       let value := VObject [ ("clientDataSetId", VBigint id) ] in
       call_signTypedData this types_DeleteDataSet value) in
  let* sig := lift (Signature_from signature) in
  let* id := lift (BigInt clientDataSetId) in
  let* signedData :=
    lift (TypedDataEncoder_hash (this_domain this) types_DeleteDataSet
            (VObject [ ("clientDataSetId", VBigint id) ])) in
  ret {| signature := signature; v := sig_v sig; r := sig_r sig; s := sig_s sig;
         signedData := signedData |}.

End WithEthers.
End Auth.

(** ** session/key.ts *)

Module SessionKey.

(** [EIP712_TYPE_HASHES], the digests of the four encoded type strings. *)
Record TypeHashes : Type := {
  CreateDataSet : string;
  AddPieces : string;
  SchedulePieceRemovals : string;
  DeleteDataSet : string
}.

(** One entry of the batch and one entry of its answer ([Multicall3]'s
    [Call3] and [Result]). *)
Record Call3 : Type := {
  target : string;
  allowFailure : bool;
  callData : string
}.

Record Result3 : Type := {
  success : bool;
  returnData : Uint8Array
}.

(** The collaborators of a [SessionKey]: the constants of [utils], the ABI
    coder of [ethers], and the chain behind the provider. *)
Class Chain : Type := {
  EIP712_TYPE_HASHES : TypeHashes;
  (** [getFilecoinNetworkType(provider)] *)
  getFilecoinNetworkType : Result string;
  (** [CONTRACT_ADDRESSES.MULTICALL3[network]] *)
  MULTICALL3 : string -> string;
  (** [registryInterface.encodeFunctionData(fn, args)] *)
  encodeFunctionData : string -> list string -> string;
  (** [registryInterface.decodeFunctionResult(fn, data)[0]] for a function
      with the single output [uint256] *)
  decodeFunctionResult : string -> Uint8Array -> Result Z;
  (** [multicall.aggregate3.staticCall(calls)] at a multicall address *)
  aggregate3 : string -> list Call3 -> Result (list Result3)
}.

Record SessionKey : Type := {
  _owner_getAddress : Result string;
  _signer_getAddress : Result string;
  _registry_getAddress : Result string
}.

Section WithChain.
Context `{Chain}.

Definition CREATE_DATA_SET_TYPEHASH : string := CreateDataSet EIP712_TYPE_HASHES.
Definition ADD_PIECES_TYPEHASH : string := AddPieces EIP712_TYPE_HASHES.
Definition SCHEDULE_PIECE_REMOVALS_TYPEHASH : string :=
  SchedulePieceRemovals EIP712_TYPE_HASHES.
Definition DELETE_DATA_SET_TYPEHASH : string := DeleteDataSet EIP712_TYPE_HASHES.

Definition PDP_PERMISSIONS : list string :=
  [ CREATE_DATA_SET_TYPEHASH;
    ADD_PIECES_TYPEHASH;
    SCHEDULE_PIECE_REMOVALS_TYPEHASH;
    DELETE_DATA_SET_TYPEHASH ].

(** Lines 89-100: one call per requested permission. *)
Definition prepare_calls (ownerAddress signerAddress registryAddress : string)
  (permissions : list string) : list Call3 :=
  map (fun permission =>
         {| target := registryAddress;
            allowFailure := true;
            callData := encodeFunctionData "authorizationExpiry"
                          [ ownerAddress; signerAddress; permission ] |})
      permissions.

(** A property key that is [undefined] is the string ["undefined"]. *)
Definition key_at (l : list string) (i : nat) : string :=
  match l !! i with Some k => k | None => "undefined" end.

(** Lines 105-111: the loop [for (let i = 0; i < permissions.length; i++)],
    as [n] remaining rounds from index [i]. *)
Fixpoint for_results (results : list Result3) (n i : nat)
  (expiries : gmap string Z) : Result (gmap string Z) :=
  match n with
  | O => Return expiries
  | S n' =>
      match results !! i with
      | None =>
          Throw (TypeError "Cannot read properties of undefined (reading 'returnData')")
      | Some result =>
          match decodeFunctionResult "authorizationExpiry" (returnData result) with
          | Throw e => Throw e
          | Return expiry =>
              for_results results n' (S i)
                (<[ key_at PDP_PERMISSIONS i := expiry ]> expiries)
          end
      end
  end.

(** [Promise.all] of the three address lookups is taken in the order of the
    array; an omitted [permissions] is [PDP_PERMISSIONS]. *)
Definition fetchExpiries (this : SessionKey) (permissions : option (list string))
  : Result (gmap string Z) :=
  let permissions := default PDP_PERMISSIONS permissions in
  match getFilecoinNetworkType with
  | Throw e => Throw e
  | Return network =>
      let multicall := MULTICALL3 network in
      match _owner_getAddress this, _signer_getAddress this,
            _registry_getAddress this with
      | Return ownerAddress, Return signerAddress, Return registryAddress =>
          let calls :=
            prepare_calls ownerAddress signerAddress registryAddress permissions in
          match aggregate3 multicall calls with
          | Throw e => Throw e
          | Return results =>
              for_results results (length permissions) 0 ∅
          end
      | Throw e, _, _ => Throw e
      | _, Throw e, _ => Throw e
      | _, _, Throw e => Throw e
      end
  end.

End WithChain.

(** *** The ABI decoding of one [uint256]

    What [decodeFunctionResult] of [ethers] does for a function whose only
    output is a [uint256]: the data must be a whole number of 32-byte words
    and hold the first one, read big-endian. *)
Definition big_endian (b : Uint8Array) : Z :=
  fold_left (fun acc x => (acc * 256 + Z.of_N (Byte.to_N x))%Z) b 0%Z.

Definition abi_decode_uint256 (fn : string) (data : Uint8Array) : Result Z :=
  if negb (length data mod 32 =? 0)%nat
  then Throw (Error "invalid length for result data")
  else if (32 <=? length data)%nat
  then Return (big_endian (take 32 data))
  else Throw (Error "could not decode result data").

(** A word holding [z], for [0 <= z < 256]. *)
Definition word_of_byte (x : Byte.byte) : Uint8Array := replicate 31 Byte.x00 ++ [x].

End SessionKey.

(** ** The specification's side

    What the specification says a signed digest is computed from, written
    without reference to the code of [PDPAuthHelper]. *)

Module Spec.
Import Auth.

(** The four authorisation operations with their arguments. *)
Inductive Operation : Type :=
| CreateDataSet (clientDataSetId : NumberOrBigint) (payee : string)
    (metadata : option (list MetadataEntry))
| AddPieces (clientDataSetId firstPieceId : NumberOrBigint)
    (pieceDataArray : list Piece) (metadata : option (list (list MetadataEntry)))
| SchedulePieceRemovals (clientDataSetId : NumberOrBigint)
    (pieceIds : list NumberOrBigint)
| DeleteDataSet (clientDataSetId : NumberOrBigint).

Definition primaryType_of (op : Operation) : string :=
  match op with
  | CreateDataSet _ _ _ => "CreateDataSet"
  | AddPieces _ _ _ _ => "AddPieces"
  | SchedulePieceRemovals _ _ => "SchedulePieceRemovals"
  | DeleteDataSet _ => "DeleteDataSet"
  end.

(** The type set of a root type: the root and every custom type it refers
    to, directly or not, each with its field list. *)
Definition type_set (rootType : string) : Types :=
  match Eip712.collectType Eip712.depth rootType [] with
  | Some (Return typeMap) => map (fun e => (fst e, schema (fst e))) typeMap
  | _ => []
  end.

(** The structural invariant a caller has to respect: per-piece metadata is
    omitted, empty, or has one entry per piece. *)
Definition valid_metadata (op : Operation) : Prop :=
  match op with
  | AddPieces _ _ pieces metadata =>
      length (default [] metadata) = 0%nat
      \/ length (default [] metadata) = length pieces
  | _ => True
  end.

(** The integer an identifier stands for. *)
Definition integer_of (x : NumberOrBigint) : option Z :=
  match x with
  | OfBigint z => Some z
  | OfNumber (Integer z) => Some z
  | OfNumber NonInteger => None
  end.

Fixpoint integers_of (l : list NumberOrBigint) : option (list Z) :=
  match l with
  | [] => Some []
  | x :: l' =>
      match integer_of x, integers_of l' with
      | Some z, Some zs => Some (z :: zs)
      | _, _ => None
      end
  end.

Section WithEthers.
Context `{Ethers}.

Definition bytes_of (p : Piece) : option Uint8Array :=
  match p with
  | PieceString s => asPieceCID s
  | PieceCID b => Some b
  end.

Fixpoint all_bytes_of (l : list Piece) : option (list Uint8Array) :=
  match l with
  | [] => Some []
  | p :: l' =>
      match bytes_of p, all_bytes_of l' with
      | Some b, Some bs => Some (b :: bs)
      | _, _ => None
      end
  end.

(** The per-piece metadata of an [AddPieces] payload: what was supplied, or
    one empty list per piece when nothing was. *)
Definition metadata_per_piece (pieces : list Piece)
  (metadata : option (list (list MetadataEntry))) : list (list MetadataEntry) :=
  match metadata with
  | None | Some [] => replicate (length pieces) []
  | Some m => m
  end.

Definition value_PieceMetadata (i : nat) (m : list MetadataEntry) : JsValue :=
  VObject [ ("pieceIndex", VNumber (Integer (Z.of_nat i)));
            ("metadata", of_metadata m) ].

(** The canonical value object of an operation: identifiers as big
    integers, content identifiers as their bytes. *)
Definition canonical_value (op : Operation) : option JsValue :=
  match op with
  | CreateDataSet clientDataSetId payee metadata =>
      id ← integer_of clientDataSetId;
      Some (VObject [ ("clientDataSetId", VBigint id);
                      ("metadata", of_metadata (default [] metadata));
                      ("payee", VString payee) ])
  | AddPieces clientDataSetId firstPieceId pieces metadata =>
      id ← integer_of clientDataSetId;
      first ← integer_of firstPieceId;
      cids ← all_bytes_of pieces;
      Some (VObject [ ("clientDataSetId", VBigint id);
                      ("firstAdded", VBigint first);
                      ("pieceData",
                        VArray (map (fun b => VObject [ ("data", VBytes b) ]) cids));
                      ("pieceMetadata",
                        VArray (imap value_PieceMetadata
                                  (metadata_per_piece pieces metadata))) ])
  | SchedulePieceRemovals clientDataSetId pieceIds =>
      id ← integer_of clientDataSetId;
      ids ← integers_of pieceIds;
      Some (VObject [ ("clientDataSetId", VBigint id);
                      ("pieceIds", VArray (map VBigint ids)) ])
  | DeleteDataSet clientDataSetId =>
      id ← integer_of clientDataSetId;
      Some (VObject [ ("clientDataSetId", VBigint id) ])
  end.

(** The digest a verifier recomputes: domain, type set, canonical value. *)
Definition recomputed_digest (d : TypedDataDomain) (op : Operation)
  : option (Result string) :=
  value ← canonical_value op;
  Some (TypedDataEncoder_hash d (type_set (primaryType_of op)) value).

(** The operation of [PDPAuthHelper] that signs [op]. *)
Definition sign (this : PDPAuthHelper) (op : Operation) : M AuthSignature :=
  match op with
  | CreateDataSet clientDataSetId payee metadata =>
      signCreateDataSet this clientDataSetId payee metadata
  | AddPieces clientDataSetId firstPieceId pieces metadata =>
      signAddPieces this clientDataSetId firstPieceId pieces metadata
  | SchedulePieceRemovals clientDataSetId pieceIds =>
      signSchedulePieceRemovals this clientDataSetId pieceIds
  | DeleteDataSet clientDataSetId =>
      signDeleteDataSet this clientDataSetId
  end.

End WithEthers.
End Spec.

(** ** Concrete collaborators

    A runtime, two signers and a chain on which the operations can be run. *)

Module Scenario.
Import Auth SessionKey.

Definition a_piece : string := "bafkzcibcaapao".

Definition ethers0 : Ethers := {|
  TypedDataEncoder_hash := fun d t v =>
    match t with
    | (root, _) :: _ => Return ("digest:" +:+ root)
    | [] => Throw (Error "no types")
    end;
  Signature_from := fun sig =>
    if String.eqb sig "" then Throw (Error "invalid signature")
    else Return {| sig_v := 27; sig_r := "r:" +:+ sig; sig_s := "s:" +:+ sig |};
  hexlify := fun b => "0x";
  number_toString := fun n => "0";
  bigint_toString := fun z => "0";
  asPieceCID := fun s => if String.eqb s a_piece then Some [Byte.x01; Byte.x55] else None;
  window_ethereum := false
|}.

(** An [ethers.Wallet]: it holds the key and signs by itself. *)
Definition wallet : Signer := {|
  constructor_name := "Wallet";
  inner_signer := None;
  signingKey := true;
  provider := None;
  getAddress := Return "0xf39f";
  signTypedData := fun d t v => Return "0xlocal"
|}.

(** A signer of a [BrowserProvider]: the key is held by the extension. *)
Definition browser_signer : Signer := {|
  constructor_name := "JsonRpcSigner";
  inner_signer := None;
  signingKey := false;
  provider :=
    Some {| _eip1193Provider :=
              Some (Some {| eip1193_request := Some (fun m a doc => Return "0xagent") |});
            request := None;
            send := Some (fun m a doc => Return "0xsent") |};
  getAddress := Return "0x7099";
  signTypedData := fun d t v => Throw (Error "unsupported")
|}.

Definition local_helper : PDPAuthHelper :=
  new_PDPAuthHelper "0x5fbd" wallet 314159 None.

Definition agent_helper : PDPAuthHelper :=
  new_PDPAuthHelper "0x5fbd" browser_signer 314159 None.

Definition hashes0 : TypeHashes := {|
  CreateDataSet := "0xc1";
  AddPieces := "0xa2";
  SchedulePieceRemovals := "0x53";
  DeleteDataSet := "0xd4"
|}.

(** A chain whose multicall answers [answer calls]. *)
Definition chain_answering (answer : list Call3 -> list Result3) : Chain := {|
  EIP712_TYPE_HASHES := hashes0;
  getFilecoinNetworkType := Return "calibration";
  MULTICALL3 := fun network => "0xca11";
  encodeFunctionData := fun fn args => fn +:+ "(" +:+ join "," args +:+ ")";
  decodeFunctionResult := abi_decode_uint256;
  aggregate3 := fun multicall calls => Return (answer calls)
|}.

Definition answered (x : Byte.byte) : Result3 :=
  {| success := true; returnData := word_of_byte x |}.

(** A sub-call that reverted without data. *)
Definition reverted : Result3 := {| success := false; returnData := [] |}.

(** The registry answers every call. *)
Definition healthy_chain : Chain :=
  chain_answering (fun calls => map (fun _ => answered Byte.x2a) calls).

(** The registry fails the second call of four. *)
Definition one_failing_chain : Chain :=
  chain_answering (fun calls =>
    [ answered Byte.x0a; reverted; answered Byte.x1e; answered Byte.x28 ]).

Definition session : SessionKey := {|
  _owner_getAddress := Return "0xf39f";
  _signer_getAddress := Return "0x7099";
  _registry_getAddress := Return "0x97e9"
|}.

End Scenario.

(** ** Notions used to state what the code keeps and never does *)

Module Closure.
Import Eip712.

(** Every entry of a [typeMap] is a key of the registry with its own
    fragment. *)
Definition well_formed (m : Map) : Prop :=
  forall k v, In (k, v) m -> is_key k = true /\ v = fragment_of k.

(** [m'] has every entry of [m], unchanged. *)
Definition extends (m m' : Map) : Prop :=
  forall k v, Map_get m k = Some v -> Map_get m' k = Some v.



End Closure.

(** ** The earlier revisions of the session key

    [unnamed/part_001] writes the four encoded type strings out;
    [unnamed/part_000] computes them with [getEIP712TypeString]. Both hash
    them with [ethers.id], a parameter here; both keep the expiries in the
    object and refresh them in place. *)

Module KeyRev1.
Section WithId.
Context (ethers_id : string -> string).

Definition CREATE_DATA_SET_TYPEHASH : string :=
  ethers_id "CreateDataSet(uint256 clientDataSetId,address payee,MetadataEntry[] metadata)MetadataEntry(string key,string value)".

Definition ADD_PIECES_TYPEHASH : string :=
  ethers_id "AddPieces(uint256 clientDataSetId,uint256 firstAdded,Cid[] pieceData,PieceMetadata[] pieceMetadata)Cid(bytes data)MetadataEntry(string key,string value)PieceMetadata(uint256 pieceIndex,MetadataEntry[] metadata)".

Definition SCHEDULE_PIECE_REMOVALS_TYPEHASH : string :=
  ethers_id "SchedulePieceRemovals(uint256 clientDataSetId,uint256[] pieceIds)".

Definition DELETE_DATA_SET_TYPEHASH : string :=
  ethers_id "DeleteDataSet(uint256 clientDataSetId)".

Definition PDP_PERMISSIONS : list string :=
  [ CREATE_DATA_SET_TYPEHASH;
    ADD_PIECES_TYPEHASH;
    SCHEDULE_PIECE_REMOVALS_TYPEHASH;
    DELETE_DATA_SET_TYPEHASH ].

End WithId.
End KeyRev1.

Module KeyRev0.
Import SessionKey.

(** [ethers.id(getEIP712TypeString(rootType))], evaluated when the module
    is loaded: an exception of [getEIP712TypeString] is one of the module. *)
Definition typehash (ethers_id : string -> string) (rootType : string)
  : option (Result string) :=
  match Eip712.getEIP712TypeString rootType with
  | Some (Return str) => Some (Return (ethers_id str))
  | Some (Throw e) => Some (Throw e)
  | None => None
  end.

(** The constants of the module, when it loads. *)
Definition PDP_PERMISSIONS_loaded (ethers_id : string -> string)
  : option (Result (list string)) :=
  match typehash ethers_id "CreateDataSet", typehash ethers_id "AddPieces",
        typehash ethers_id "SchedulePieceRemovals",
        typehash ethers_id "DeleteDataSet" with
  | Some (Return c), Some (Return a), Some (Return s), Some (Return d) =>
      Some (Return [ c; a; s; d ])
  | Some (Throw e), _, _, _ => Some (Throw e)
  | Some _, Some (Throw e), _, _ => Some (Throw e)
  | Some _, Some _, Some (Throw e), _ => Some (Throw e)
  | Some _, Some _, Some _, Some (Throw e) => Some (Throw e)
  | _, _, _, _ => None
  end.

(** The object: the three parties and the cache; an entry of the cache is
    [None] for [null]. *)
Record SessionKey : Type := {
  parties : SessionKey.SessionKey;
  expiries : gmap string (option Z)
}.


Section WithChain.
Context `{Chain} (PDP_PERMISSIONS : list string).

(** The loop [for (let i = 0; i < PDP_PERMISSIONS.length; i++)], as [n]
    remaining rounds from index [i]; the cache is written round by round,
    so a round that throws leaves what the rounds before it wrote. *)
Fixpoint for_results (results : list Result3) (n i : nat)
  (expiries : gmap string (option Z)) : Result unit * gmap string (option Z) :=
  match n with
  | O => (Return tt, expiries)
  | S n' =>
      match results !! i with
      | None =>
          (Throw (TypeError "Cannot read properties of undefined (reading 'returnData')"),
           expiries)
      | Some result =>
          match decodeFunctionResult "authorizationExpiry" (returnData result) with
          | Throw e => (Throw e, expiries)
          | Return expiry =>
              for_results results n' (S i)
                (<[ key_at PDP_PERMISSIONS i := Some expiry ]> expiries)
          end
      end
  end.

Definition with_expiries (this : SessionKey) (e : gmap string (option Z))
  : SessionKey :=
  {| parties := parties this; expiries := e |}.

Definition fetchExpiries (this : SessionKey) : Result unit * SessionKey :=
  match getFilecoinNetworkType with
  | Throw e => (Throw e, this)
  | Return network =>
      let multicall := MULTICALL3 network in
      match _owner_getAddress (parties this), _signer_getAddress (parties this),
            _registry_getAddress (parties this) with
      | Return ownerAddress, Return signerAddress, Return registryAddress =>
          let calls :=
            prepare_calls ownerAddress signerAddress registryAddress
              PDP_PERMISSIONS in
          match aggregate3 multicall calls with
          | Throw e => (Throw e, this)
          | Return results =>
              let (r, e) :=
                for_results results (length PDP_PERMISSIONS) 0 (expiries this) in
              (r, with_expiries this e)
          end
      | Throw e, _, _ => (Throw e, this)
      | _, Throw e, _ => (Throw e, this)
      | _, _, Throw e => (Throw e, this)
      end
  end.

End WithChain.
End KeyRev0.

(** ** The answer of the registry to a refresh *)

Module Refresh.
Import SessionKey.

(** The batch for [permissions] went out and [results] came back. *)
Definition answered `{Chain} (this : SessionKey) (permissions : list string)
  (results : list Result3) : Prop :=
  exists network ownerAddress signerAddress registryAddress,
    getFilecoinNetworkType = Return network
    /\ _owner_getAddress this = Return ownerAddress
    /\ _signer_getAddress this = Return signerAddress
    /\ _registry_getAddress this = Return registryAddress
    /\ aggregate3 (MULTICALL3 network)
         (prepare_calls ownerAddress signerAddress registryAddress permissions)
       = Return results.

(** The chain [c], every entry of its answers passed through [f]. *)
Definition with_results (f : Result3 -> Result3) (c : Chain) : Chain := {|
  EIP712_TYPE_HASHES := @EIP712_TYPE_HASHES c;
  getFilecoinNetworkType := @getFilecoinNetworkType c;
  MULTICALL3 := @MULTICALL3 c;
  encodeFunctionData := @encodeFunctionData c;
  decodeFunctionResult := @decodeFunctionResult c;
  aggregate3 := fun multicall calls =>
    match @aggregate3 c multicall calls with
    | Return results => Return (map f results)
    | Throw e => Throw e
    end
|}.

End Refresh.

(** ** The interactions of a signing operation *)

Module Interaction.
Import Auth Spec.

(** The events that ask somebody for a signature. *)
Definition is_signing (e : Event) : bool :=
  match e with
  | console_log _ => false
  | _ => true
  end.

(** [m] only appends to the trace, at most [n] signing events among what
    it appends, and every appended event satisfies [W]; whether it returns
    or throws. *)
Definition emits {A} (n : nat) (W : Event -> Prop) (m : M A) : Prop :=
  forall t r t', m t = (r, t') ->
  exists evs,
    t' = t ++ evs
    /\ (length (List.filter is_signing evs) <= n)%nat
    /\ Forall W evs.

Section WithEthers.
Context `{Ethers}.

(** The signer is fronted by an agent: it holds no key, and its provider is
    a browser provider, or [window.ethereum] is set, or the provider can
    [send] or [request]. *)
Definition uses_agent (this : PDPAuthHelper) : bool :=
  let actualSigner := getUnderlyingSigner this in
  negb (signingKey actualSigner)
  && match provider actualSigner with
     | None => false
     | Some p =>
         bool_decide (is_Some (_eip1193Provider p))
         || window_ethereum
         || bool_decide (is_Some (send p))
         || bool_decide (is_Some (request p))
     end.

(** What a signing event of operation [op] on helper [this] has to look
    like: the key signs the canonical value under the helper's domain and
    the type set of the operation; the agent is sent, for the address of
    the signer, a document with that domain, the type set preceded by
    [EIP712Domain], and the operation as primary type. *)
Definition well_formed_event (this : PDPAuthHelper) (op : Operation)
  (e : Event) : Prop :=
  match e with
  | console_log _ => True
  | signTypedData_called d t v =>
      d = this_domain this
      /\ t = type_set (primaryType_of op)
      /\ canonical_value op = Some v
  | request_called method address doc | send_called method address doc =>
      method = "eth_signTypedData_v4"
      /\ getAddress (signer this) = Return address
      /\ types doc = ("EIP712Domain", EIP712Domain) :: type_set (primaryType_of op)
      /\ primaryType doc = primaryType_of op
      /\ domain doc = this_domain this
  end.

End WithEthers.
End Interaction.

(** ** More collaborators to run the code on *)

Module Scenario2.
Import Auth SessionKey Scenario.

(** A [NonceManager] around a wallet: it has the property [signer] and
    cannot sign typed data itself. *)
Definition nonce_manager : Signer := {|
  constructor_name := "NonceManager";
  inner_signer := Some wallet;
  signingKey := false;
  provider := None;
  getAddress := Return "0xf39f";
  signTypedData := fun d t v => Throw (Error "not implemented")
|}.

Definition managed_helper : PDPAuthHelper :=
  new_PDPAuthHelper "0x5fbd" nonce_manager 314159 None.

(** The agent of [browser_signer]. *)
Definition agent : Rpc := fun m a doc => Return "0xagent".

Definition browser_provider : Provider :=
  {| _eip1193Provider := Some (Some {| eip1193_request := Some agent |});
     request := None;
     send := Some (fun m a doc => Return "0xsent") |}.


(** The flag of an entry set to failed, its data kept. *)
Definition mark_failed (r : Result3) : Result3 :=
  {| success := false; returnData := returnData r |}.

(** A session key of the earlier revisions with two timestamps cached. *)
Definition cached : KeyRev0.SessionKey :=
  {| KeyRev0.parties := session;
     KeyRev0.expiries := <[ "0xa2" := Some 7%Z ]> (<[ "0xd4" := Some 9%Z ]> ∅) |}.

Definition four_answers : list Result3 :=
  [ answered Byte.x2a; answered Byte.x2a; answered Byte.x2a; answered Byte.x2a ].

Definition one_failing_answers : list Result3 :=
  [ answered Byte.x0a; reverted; answered Byte.x1e; answered Byte.x28 ].

End Scenario2.

(** * Properties *)

(** ** The type canonicaliser *)

Section Eip712Facts.
Import Eip712.

Lemma mem_In (k : string) (l : list string) : mem k l = true <-> In k l.
Proof.
  unfold mem. rewrite existsb_exists. split.
  - intros (x & Hx & Heq). apply String.eqb_eq in Heq. now subst.
  - intros Hin. exists k. split; [assumption | apply String.eqb_refl].
Qed.

Lemma assoc_Some_In {A} (k : string) (l : list (string * A)) (v : A) :
  assoc k l = Some v -> In k (map fst l).
Proof.
  induction l as [| [k' v'] l IH]; simpl; [discriminate |].
  destruct (String.eqb k k') eqn:E.
  - apply String.eqb_eq in E. auto.
  - auto.
Qed.

Lemma assoc_None_mem {A} (k : string) (l : list (string * A)) :
  assoc k l = None -> mem k (map fst l) = false.
Proof.
  induction l as [| [k' v'] l IH]; simpl; [reflexivity |].
  destruct (String.eqb k k'); [discriminate | auto].
Qed.

(** A name is found by [in] exactly when it is a key of the registry or a
    property of [Object.prototype]. *)
Lemma in_EIP712_TYPES_spec (k : string) :
  in_EIP712_TYPES k = is_key k || mem k Object_prototype.
Proof.
  unfold in_EIP712_TYPES, get_property, is_key.
  destruct (assoc k EIP712_TYPES) eqn:E.
  - apply assoc_Some_In, mem_In in E. rewrite E. reflexivity.
  - apply assoc_None_mem in E. rewrite E.
    destruct (mem k Object_prototype); reflexivity.
Qed.

Lemma for_of_mono (f g : string -> Map -> option (Result Map)) :
  (forall t m r, f t m = Some r -> g t m = Some r) ->
  forall args m r, for_of f args m = Some r -> for_of g args m = Some r.
Proof.
  intros Hfg. induction args as [| arg rest IH]; intros m r; simpl; [auto |].
  destruct (f (baseType_of arg) m) as [[m' | e] |] eqn:E; [| | discriminate].
  - rewrite (Hfg _ _ _ E). apply IH.
  - rewrite (Hfg _ _ _ E). auto.
Qed.

(** More fuel never changes the outcome of a run that ended. *)
Lemma collectType_mono (n : nat) :
  forall t m r, collectType n t m = Some r -> collectType (S n) t m = Some r.
Proof.
  induction n as [| n IH]; intros t m r; [discriminate |].
  intros Hrun. simpl in Hrun |- *.
  destruct (Map_has m t || negb (in_EIP712_TYPES t)); [assumption |].
  destruct (get_property t); try assumption.
  revert Hrun. apply for_of_mono. exact IH.
Qed.

Lemma collectType_le (n n' : nat) t m r :
  (n <= n')%nat -> collectType n t m = Some r -> collectType n' t m = Some r.
Proof.
  induction 1 as [| n' _ IH]; [auto |].
  intros Hrun. apply collectType_mono. auto.
Qed.

Lemma getEIP712TypeString_fuel_le (n n' : nat) rootType r :
  (n <= n')%nat ->
  getEIP712TypeString_fuel n rootType = Some r ->
  getEIP712TypeString_fuel n' rootType = Some r.
Proof.
  intros Hle. unfold getEIP712TypeString_fuel.
  destruct (negb (in_EIP712_TYPES rootType)); [auto |].
  destruct (collectType n rootType []) as [res |] eqn:E; [| discriminate].
  now rewrite (collectType_le _ _ _ _ _ Hle E).
Qed.

(** An unknown name is refused before anything is collected. *)
Lemma getEIP712TypeString_unknown (rootType : string) :
  in_EIP712_TYPES rootType = false ->
  getEIP712TypeString rootType = Some (Throw (SchemaNotFound rootType)).
Proof.
  intros Hin. unfold getEIP712TypeString, getEIP712TypeString_fuel.
  now rewrite Hin.
Qed.

(** Every key of the registry has an encoded type string. *)
Lemma getEIP712TypeString_key (rootType : string) :
  is_key rootType = true ->
  exists str, getEIP712TypeString rootType = Some (Return str).
Proof.
  intros Hkey. apply mem_In in Hkey. simpl in Hkey.
  repeat (destruct Hkey as [<- | Hkey]; [vm_compute; eauto |]).
  contradiction.
Qed.

(** A name inherited from [Object.prototype] passes the [in] test and
    breaks in [collectType]. *)
Lemma getEIP712TypeString_inherited (rootType : string) :
  mem rootType Object_prototype = true ->
  getEIP712TypeString rootType =
  Some (Throw (TypeError "args.map is not a function")).
Proof.
  intros Hin. apply mem_In in Hin. simpl in Hin.
  repeat (destruct Hin as [<- | Hin]; [vm_compute; reflexivity |]).
  contradiction.
Qed.


(** C2: the encoded type of [AddPieces] is the string of the specification:
    the fragment of the root, then the fragments of [Cid], [MetadataEntry]
    and [PieceMetadata], the types it refers to, in ascending order of their
    names and with nothing between them. *)
Theorem encodeType_AddPieces :
  getEIP712TypeString "AddPieces" =
    Some (Return "AddPieces(uint256 clientDataSetId,uint256 firstAdded,Cid[] pieceData,PieceMetadata[] pieceMetadata)Cid(bytes data)MetadataEntry(string key,string value)PieceMetadata(uint256 pieceIndex,MetadataEntry[] metadata)")
  /\ getEIP712TypeString "AddPieces" =
       Some (Return (fragment_of "AddPieces" +:+ fragment_of "Cid" +:+
                     fragment_of "MetadataEntry" +:+ fragment_of "PieceMetadata"))
  /\ (localeCompare "Cid" "MetadataEntry" < 0)%Z
  /\ (localeCompare "MetadataEntry" "PieceMetadata" < 0)%Z.
Proof.
  repeat split; vm_compute; reflexivity.
Qed.

(** C8, where the code departs from it: ["toString"] is no key of the
    registry, yet [getEIP712TypeString] does not refuse it with the error of
    an unknown type; the [in] test finds the inherited property and the
    call ends in a [TypeError] of the runtime. *)
Theorem encodeType_inherited_name :
  is_key "toString" = false
  /\ getEIP712TypeString "toString" =
       Some (Throw (TypeError "args.map is not a function"))
  /\ TypeError "args.map is not a function" <> SchemaNotFound "toString".
Proof.
  repeat split; try (vm_compute; reflexivity).
  discriminate.
Qed.



End Eip712Facts.

(** ** The monad of asynchronous code *)

Section MonadFacts.

Lemma bind_Return {A B} (m : M A) (k : A -> M B) t b t' :
  bind m k t = (Return b, t') ->
  exists a t1, m t = (Return a, t1) /\ k a t1 = (Return b, t').
Proof.
  unfold bind. destruct (m t) as [[a | e] t1]; [eauto | discriminate].
Qed.

Lemma bind_Throw_first {A B} (m : M A) (k : A -> M B) t e t' :
  m t = (Throw e, t') -> bind m k t = (Throw e, t').
Proof. unfold bind. now intros ->. Qed.

Lemma lift_Return {A} (r : Result A) t a t' :
  lift r t = (Return a, t') -> r = Return a /\ t' = t.
Proof. unfold lift. intros [= -> ->]. auto. Qed.

Lemma ret_Return {A} (x : A) t a t' :
  ret x t = (Return a, t') -> a = x /\ t' = t.
Proof. unfold ret. intros [= -> ->]. auto. Qed.

End MonadFacts.

(** Splits a run [let* x := m in k] that returned into the runs of [m]
    and of [k]. *)
Ltac split_run H :=
  repeat match type of H with
         | bind _ _ _ = (Return _, _) =>
             let a := fresh "a" in
             let t := fresh "t" in
             let Hm := fresh "Hrun" in
             apply bind_Return in H as (a & t & Hm & H)
         | ret _ _ = (Return _, _) =>
             apply ret_Return in H as [? ?]; subst
         end.

(** ** The payload builder and the signing dispatcher *)

Section AuthFacts.
Import Auth Spec.
Context `{Ethers}.

Lemma BigInt_integer_of (x : NumberOrBigint) (z : Z) :
  BigInt x = Return z -> integer_of x = Some z.
Proof.
  destruct x as [[z' |] | z']; simpl; intros Heq;
    try discriminate; now inversion Heq.
Qed.

Lemma map_BigInt_integers_of (l : list NumberOrBigint) (zs : list Z) :
  map_BigInt l = Return zs -> integers_of l = Some zs.
Proof.
  revert zs. induction l as [| x l IH]; simpl; intros zs Heq.
  - now inversion Heq.
  - destruct (BigInt x) as [z | e] eqn:Hx; [| discriminate].
    destruct (map_BigInt l) as [zs' | e] eqn:Hl; [| discriminate].
    inversion Heq; subst.
    now rewrite (BigInt_integer_of _ _ Hx), (IH _ eq_refl).
Qed.

Lemma type_set_CreateDataSet : type_set "CreateDataSet" = types_CreateDataSet.
Proof. vm_compute. reflexivity. Qed.

Lemma type_set_AddPieces : type_set "AddPieces" = types_AddPieces.
Proof. vm_compute. reflexivity. Qed.

Lemma type_set_SchedulePieceRemovals :
  type_set "SchedulePieceRemovals" = types_SchedulePieceRemovals.
Proof. vm_compute. reflexivity. Qed.

Lemma type_set_DeleteDataSet : type_set "DeleteDataSet" = types_DeleteDataSet.
Proof. vm_compute. reflexivity. Qed.

(** *** The length check *)

Lemma check_metadata_Return pieces metadata m :
  check_metadata pieces metadata = Return m ->
  m = metadata_per_piece pieces metadata /\ length m = length pieces.
Proof.
  unfold check_metadata, metadata_per_piece.
  destruct metadata as [[| x l] |].
  - intros [= <-]. now rewrite length_replicate.
  - change (default [] (Some (x :: l))) with (x :: l).
    change (length (x :: l) =? 0)%nat with false. cbv iota.
    destruct (Nat.eqb (length (x :: l)) (length pieces)) eqn:E; [| discriminate].
    intros [= <-]. apply Nat.eqb_eq in E. auto.
  - intros [= <-]. now rewrite length_replicate.
Qed.

Lemma check_metadata_empty pieces :
  check_metadata pieces (Some []) = Return (replicate (length pieces) []).
Proof. reflexivity. Qed.


(** *** The loop over the pieces *)

Lemma all_bytes_of_length pieces bs :
  all_bytes_of pieces = Some bs -> length bs = length pieces.
Proof.
  revert bs. induction pieces as [| p l IH]; simpl; intros bs Heq.
  - now inversion Heq.
  - destruct (bytes_of p); [| discriminate].
    destruct (all_bytes_of l) as [bs' |]; [| discriminate].
    inversion Heq; subst. simpl. now rewrite (IH _ eq_refl).
Qed.

(** What the loop has appended when it ends: one [Cid] and one
    [PieceMetadata] per piece, numbered from the entry index on. *)
Lemma for_pieces_Return metadata pieces :
  forall i acc1 acc2 cids pms,
  for_pieces metadata i pieces acc1 acc2 = Return (cids, pms) ->
  exists bs,
    all_bytes_of pieces = Some bs
    /\ cids = acc1 ++ map Build_Cid bs
    /\ pms = acc2 ++ imap (fun j _ => {| pieceIndex := i + j;
                                         metadata := metadata !! (i + j)%nat |}) bs.
Proof.
  induction pieces as [| p l IH]; intros i acc1 acc2 cids pms; simpl.
  - intros [= <- <-]. exists []. simpl. now rewrite !app_nil_r.
  - fold (bytes_of p). destruct (bytes_of p) as [b |]; [| discriminate].
    intros Hrun. apply IH in Hrun as (bs & Hbs & -> & ->).
    exists (b :: bs). rewrite Hbs. split; [reflexivity |].
    split.
    + now rewrite <- app_assoc.
    + rewrite <- app_assoc. simpl. rewrite Nat.add_0_r. do 2 f_equal.
      apply imap_ext. intros j x _. simpl. now rewrite Nat.add_succ_r.
Qed.

Lemma for_pieces_Throw metadata pieces :
  forall i acc1 acc2,
  all_bytes_of pieces = None ->
  for_pieces metadata i pieces acc1 acc2 = Throw InvalidPieceIdentifier.
Proof.
  induction pieces as [| p l IH]; intros i acc1 acc2; simpl; [discriminate |].
  fold (bytes_of p). destruct (bytes_of p) as [b |]; [| reflexivity].
  destruct (all_bytes_of l) eqn:E; [discriminate |]. intros _. now apply IH.
Qed.

Lemma all_bytes_of_unparsable pieces s :
  In (PieceString s) pieces -> asPieceCID s = None -> all_bytes_of pieces = None.
Proof.
  intros Hin Hnone. induction pieces as [| p l IH]; [contradiction |].
  simpl. destruct Hin as [-> | Hin].
  - simpl. now rewrite Hnone.
  - rewrite (IH Hin). now destruct (bytes_of p).
Qed.

(** A payload that was built: the bytes of every piece, and the metadata
    of every piece under its index. *)
Lemma build_AddPieces_Return pieces metadata cids pms :
  build_AddPieces pieces metadata = Return (cids, pms) ->
  exists bs,
    all_bytes_of pieces = Some bs
    /\ length (metadata_per_piece pieces metadata) = length pieces
    /\ cids = map Build_Cid bs
    /\ pms = imap (fun j m => {| pieceIndex := j; metadata := Some m |})
               (metadata_per_piece pieces metadata).
Proof.
  unfold build_AddPieces.
  destruct (check_metadata pieces metadata) as [m | e] eqn:Hcheck; [| discriminate].
  apply check_metadata_Return in Hcheck as [-> Hlen].
  intros Hrun. apply for_pieces_Return in Hrun as (bs & Hbs & -> & ->).
  exists bs. repeat split; try assumption.
  simpl. apply list_eq. intros j. rewrite !list_lookup_imap.
  pose proof (all_bytes_of_length _ _ Hbs) as Hbslen.
  destruct (decide (j < length pieces)%nat) as [Hlt | Hge].
  - destruct (lookup_lt_is_Some_2 bs j) as [b Hb]; [lia |].
    destruct (lookup_lt_is_Some_2 (metadata_per_piece pieces metadata) j)
      as [m Hm]; [lia |].
    rewrite Hb, Hm. reflexivity.
  - rewrite (lookup_ge_None_2 bs j) by lia.
    now rewrite (lookup_ge_None_2 (metadata_per_piece pieces metadata) j) by lia.
Qed.

(** The two arrays of a built payload, as values. *)
Lemma of_Cid_bytes (bs : list Uint8Array) :
  map of_Cid (map Build_Cid bs) = map (fun b => VObject [ ("data", VBytes b) ]) bs.
Proof. rewrite map_map. reflexivity. Qed.

Lemma of_PieceMetadata_imap (md : list (list MetadataEntry)) :
  map of_PieceMetadata
    (imap (fun j m => {| pieceIndex := j; metadata := Some m |}) md)
  = imap value_PieceMetadata md.
Proof.
  change (of_PieceMetadata <$>
            imap (fun j m => {| pieceIndex := j; metadata := Some m |}) md
          = imap value_PieceMetadata md).
  rewrite fmap_imap. apply imap_ext. reflexivity.
Qed.

(** Turns the runs of [lift] among the hypotheses into equations. *)
Ltac lifted :=
  repeat match goal with
         | Hx : lift _ _ = (Return _, _) |- _ =>
             apply lift_Return in Hx as [? ?]
         end;
  subst.

(** C1: whenever one of the four signing operations returns, the
    [signedData] of its result is the digest recomputed from the domain of
    the helper, the type set of the operation and its canonical value, with
    identifiers as big integers; this holds for every signer, so on the
    local-key path and on the external-agent path alike. *)
Theorem signedData_is_recomputed_digest (this : PDPAuthHelper) (op : Operation)
  (t t' : Trace) (res : AuthSignature) :
  sign this op t = (Return res, t') ->
  recomputed_digest (this_domain this) op = Some (Return (signedData res)).
Proof.
  destruct op as [id payee md | id first pieces md | id ids | id];
    unfold sign, recomputed_digest, canonical_value, primaryType_of; intros Hrun.
  - unfold signCreateDataSet in Hrun. split_run Hrun. lifted.
    rewrite type_set_CreateDataSet.
    erewrite BigInt_integer_of by eassumption. simpl.
    f_equal. assumption.
  - unfold signAddPieces in Hrun. split_run Hrun. lifted.
    destruct a as [cids pms].
    match goal with
    | Hb : build_AddPieces _ _ = Return _ |- _ =>
        apply build_AddPieces_Return in Hb as (bs & Hbs & Hlen & -> & ->)
    end.
    rewrite type_set_AddPieces.
    do 2 (erewrite BigInt_integer_of by eassumption). rewrite Hbs. simpl.
    rewrite <- of_Cid_bytes, <- of_PieceMetadata_imap.
    f_equal. assumption.
  - unfold signSchedulePieceRemovals in Hrun. split_run Hrun. lifted.
    rewrite type_set_SchedulePieceRemovals.
    erewrite BigInt_integer_of by eassumption.
    erewrite map_BigInt_integers_of by eassumption. simpl.
    f_equal. assumption.
  - unfold signDeleteDataSet in Hrun. split_run Hrun. lifted.
    rewrite type_set_DeleteDataSet.
    erewrite BigInt_integer_of by eassumption. simpl.
    f_equal. assumption.
Qed.

Lemma check_metadata_passes pieces (md : option (list (list MetadataEntry))) :
  length (default [] md) = 0%nat \/ length (default [] md) = length pieces ->
  check_metadata pieces md = Return (metadata_per_piece pieces md).
Proof.
  intros Hlen. destruct (check_metadata pieces md) as [m | e] eqn:Hcheck.
  - apply check_metadata_Return in Hcheck as [-> _]. reflexivity.
  - exfalso. revert Hcheck. unfold check_metadata.
    destruct (length (default [] md) =? 0)%nat eqn:E0; [discriminate |].
    destruct (length (default [] md) =? length pieces)%nat eqn:E1; [discriminate |].
    apply Nat.eqb_neq in E0, E1. lia.
Qed.


(** C6, as the code has it: when the metadata argument passes the length
    check (it is omitted, empty, or has one entry per piece) and some
    element of the piece array is a string that [asPieceCID] does not
    parse, the call fails with [InvalidPieceIdentifier], the trace
    untouched: no signature was asked for. *)
Theorem signAddPieces_unparsable_piece (this : PDPAuthHelper)
  (id first : NumberOrBigint) (pieces : list Piece)
  (md : option (list (list MetadataEntry))) (str : string) (t : Trace) :
  length (default [] md) = 0%nat \/ length (default [] md) = length pieces ->
  In (PieceString str) pieces ->
  asPieceCID str = None ->
  signAddPieces this id first pieces md t = (Throw InvalidPieceIdentifier, t).
Proof.
  intros Hlen Hin Hnone. unfold signAddPieces. apply bind_Throw_first.
  unfold lift, build_AddPieces. rewrite (check_metadata_passes _ _ Hlen).
  now rewrite (for_pieces_Throw _ _ _ _ _ (all_bytes_of_unparsable _ _ Hin Hnone)).
Qed.

(** C7: in every [AddPieces] payload that was built, [pieceMetadata] is as
    long as [pieceData] (and as the piece array), and the entry at index
    [i] has [pieceIndex] [i]. *)
Theorem build_AddPieces_invariant (pieces : list Piece)
  (md : option (list (list MetadataEntry)))
  (cids : list Cid) (pms : list PieceMetadata) :
  build_AddPieces pieces md = Return (cids, pms) ->
  length pms = length cids
  /\ length cids = length pieces
  /\ forall i pm, pms !! i = Some pm -> pieceIndex pm = i.
Proof.
  intros Hbuilt.
  apply build_AddPieces_Return in Hbuilt as (bs & Hbs & Hlen & -> & ->).
  apply all_bytes_of_length in Hbs.
  rewrite length_imap, length_map. repeat split; try lia.
  intros i pm. rewrite list_lookup_imap.
  destruct (metadata_per_piece pieces md !! i); [| discriminate].
  now intros [= <-].
Qed.


(** *** Valid inputs are signed

    On the local-key path an operation returns as soon as its payload is
    valid and the signer, [Signature.from] and the encoder answer. *)

Lemma integer_of_BigInt (x : NumberOrBigint) (z : Z) :
  integer_of x = Some z -> BigInt x = Return z.
Proof.
  destruct x as [[z' |] | z']; simpl; intros Heq;
    try discriminate; now inversion Heq.
Qed.

Lemma integers_of_map_BigInt (l : list NumberOrBigint) (zs : list Z) :
  integers_of l = Some zs -> map_BigInt l = Return zs.
Proof.
  revert zs. induction l as [| x l IH]; simpl; intros zs Heq.
  - now inversion Heq.
  - destruct (integer_of x) as [z |] eqn:Hx; [| discriminate].
    destruct (integers_of l) as [zs' |] eqn:Hl; [| discriminate].
    inversion Heq; subst.
    now rewrite (integer_of_BigInt _ _ Hx), (IH _ eq_refl).
Qed.

Lemma for_pieces_total metadata pieces bs :
  all_bytes_of pieces = Some bs ->
  forall i acc1 acc2, exists built,
    for_pieces metadata i pieces acc1 acc2 = Return built.
Proof.
  revert bs. induction pieces as [| p l IH]; intros bs Hbs i acc1 acc2; simpl.
  - eauto.
  - simpl in Hbs. fold (bytes_of p).
    destruct (bytes_of p) as [b |]; [| discriminate].
    destruct (all_bytes_of l) as [bs' |]; [| discriminate].
    now apply (IH bs').
Qed.

Lemma build_AddPieces_total pieces metadata bs :
  length (default [] metadata) = 0%nat
  \/ length (default [] metadata) = length pieces ->
  all_bytes_of pieces = Some bs ->
  build_AddPieces pieces metadata
  = Return (map Build_Cid bs,
            imap (fun j m => {| pieceIndex := j; metadata := Some m |})
              (metadata_per_piece pieces metadata)).
Proof.
  intros Hlen Hbs.
  destruct (for_pieces_total (metadata_per_piece pieces metadata) _ _ Hbs 0 [] [])
    as [[cids pms] Hrun].
  assert (Hbuilt : build_AddPieces pieces metadata = Return (cids, pms)).
  { unfold build_AddPieces. now rewrite (check_metadata_passes _ _ Hlen). }
  rewrite Hbuilt.
  apply build_AddPieces_Return in Hbuilt as (bs' & Hbs' & _ & -> & ->).
  congruence.
Qed.

Lemma isMetaMaskSigner_wallet (this : PDPAuthHelper) (t : Trace) :
  signingKey (getUnderlyingSigner this) = true ->
  isMetaMaskSigner this t
  = (Return false,
     (t ++ [ console_log "[PDPAuthHelper] Checking signer type:" ])
     ++ [ console_log "[PDPAuthHelper] Detected Wallet (has signingKey) - using local signing" ]).
Proof.
  intros Hkey. unfold isMetaMaskSigner. rewrite Hkey. reflexivity.
Qed.

(** X20: a key that signs is enough. For a signer that holds a key, also
    behind a [NonceManager], a valid operation whose canonical value the
    key signs with [sg] returns [sg] as signature together with the digest
    of that same value. *)
Lemma sign_local_key_returns (this : PDPAuthHelper) (op : Operation) (t : Trace)
  (value : JsValue) (sg : string) (sig : Signature) (digest : string) :
  signingKey (getUnderlyingSigner this) = true ->
  valid_metadata op ->
  canonical_value op = Some value ->
  signTypedData (getUnderlyingSigner this) (this_domain this)
    (type_set (primaryType_of op)) value = Return sg ->
  Signature_from sg = Return sig ->
  TypedDataEncoder_hash (this_domain this) (type_set (primaryType_of op)) value
  = Return digest ->
  exists t',
    sign this op t
    = (Return {| signature := sg; v := sig_v sig; r := sig_r sig; s := sig_s sig;
                 signedData := digest |}, t').
Proof.
  intros Hkey Hvalid Hvalue Hsign Hfrom Hhash.
  destruct op as [id payee md | id first pieces md | id ids | id];
    unfold canonical_value in Hvalue; simpl primaryType_of in *;
    unfold sign.
  - destruct (integer_of id) as [z |] eqn:Hid; [| discriminate].
    simpl in Hvalue. injection Hvalue as <-.
    apply integer_of_BigInt in Hid. rewrite type_set_CreateDataSet in *.
    unfold signCreateDataSet, bind. rewrite (isMetaMaskSigner_wallet _ _ Hkey).
    unfold call_signTypedData, bind, emit, lift. rewrite Hid, Hsign, Hfrom, Hhash.
    eauto.
  - destruct (integer_of id) as [z |] eqn:Hid; [| discriminate].
    destruct (integer_of first) as [f |] eqn:Hfirst; [| discriminate].
    destruct (all_bytes_of pieces) as [bs |] eqn:Hbs; [| discriminate].
    simpl in Hvalue. injection Hvalue as <-.
    apply integer_of_BigInt in Hid, Hfirst. rewrite type_set_AddPieces in *.
    rewrite <- of_Cid_bytes, <- of_PieceMetadata_imap in Hsign, Hhash.
    unfold signAddPieces, bind, lift at 1.
    rewrite (build_AddPieces_total _ _ _ Hvalid Hbs).
    rewrite (isMetaMaskSigner_wallet _ _ Hkey).
    unfold call_signTypedData, bind, emit, lift. cbn [fst snd].
    rewrite Hid, Hfirst, Hsign, Hfrom, Hhash.
    eauto.
  - destruct (integer_of id) as [z |] eqn:Hid; [| discriminate].
    destruct (integers_of ids) as [zs |] eqn:Hids; [| discriminate].
    simpl in Hvalue. injection Hvalue as <-.
    apply integer_of_BigInt in Hid. apply integers_of_map_BigInt in Hids.
    rewrite type_set_SchedulePieceRemovals in *.
    unfold signSchedulePieceRemovals, bind, lift at 1. rewrite Hids.
    rewrite (isMetaMaskSigner_wallet _ _ Hkey).
    unfold call_signTypedData, bind, emit, lift. rewrite Hid, Hsign, Hfrom, Hhash.
    eauto.
  - destruct (integer_of id) as [z |] eqn:Hid; [| discriminate].
    simpl in Hvalue. injection Hvalue as <-.
    apply integer_of_BigInt in Hid. rewrite type_set_DeleteDataSet in *.
    unfold signDeleteDataSet, bind. rewrite (isMetaMaskSigner_wallet _ _ Hkey).
    unfold call_signTypedData, bind, emit, lift. rewrite Hid, Hsign, Hfrom, Hhash.
    eauto.
Qed.

End AuthFacts.

(** *** The operations on concrete signers *)

Section AuthRuns.
Import Auth Spec Scenario.

(** A wallet signs by itself: one call of [signTypedData], no request. *)
Example local_path_run :
  exists res,
    @sign ethers0 local_helper (DeleteDataSet (OfNumber (Integer 0))) []
    = (Return res,
       [ console_log "[PDPAuthHelper] Checking signer type:";
         console_log "[PDPAuthHelper] Detected Wallet (has signingKey) - using local signing";
         signTypedData_called (this_domain local_helper) types_DeleteDataSet
           (VObject [ ("clientDataSetId", VBigint 0) ]) ])
    /\ signature res = "0xlocal" /\ signedData res = "digest:DeleteDataSet".
Proof. eexists. repeat split. Qed.

(** A browser signer hands the document to the agent: one request. *)
Example agent_path_run :
  exists res t',
    @sign ethers0 agent_helper (DeleteDataSet (OfNumber (Integer 0))) []
    = (Return res, t')
    /\ last t' = Some (request_called "eth_signTypedData_v4" "0x7099"
                         {| types := ("EIP712Domain", EIP712Domain) :: types_DeleteDataSet;
                            primaryType := "DeleteDataSet";
                            domain := this_domain agent_helper;
                            message := VObject [ ("clientDataSetId", VString "0") ] |})
    /\ signature res = "0xagent" /\ signedData res = "digest:DeleteDataSet".
Proof. do 2 eexists. repeat split. Qed.

Lemma signedData_is_recomputed_digest_witness :
  exists res t',
    @sign ethers0 agent_helper
      (AddPieces (OfNumber (Integer 0)) (OfBigint 1)
         [ PieceString a_piece; PieceCID [Byte.x02] ] None) []
    = (Return res, t')
    /\ @recomputed_digest ethers0 (this_domain agent_helper)
         (AddPieces (OfNumber (Integer 0)) (OfBigint 1)
            [ PieceString a_piece; PieceCID [Byte.x02] ] None)
       = Some (Return (signedData res)).
Proof.
  do 2 eexists. split; [vm_compute; reflexivity |].
  eapply (@signedData_is_recomputed_digest ethers0 agent_helper
            (AddPieces (OfNumber (Integer 0)) (OfBigint 1)
               [ PieceString a_piece; PieceCID [Byte.x02] ] None) []).
  vm_compute. reflexivity.
Defined.



(** C6 fails as stated: the only piece is a string that does not parse,
    and the call fails with [InvalidArgument], because the length of the
    metadata array is checked first. *)
Lemma unparsable_piece_with_wrong_metadata_length :
  @asPieceCID ethers0 "not-a-cid" = None
  /\ @signAddPieces ethers0 local_helper (OfBigint 0) (OfBigint 1)
       [ PieceString "not-a-cid" ] (Some [ [] ; [] ]) []
     = (Throw InvalidArgument, [])
  /\ InvalidArgument <> InvalidPieceIdentifier.
Proof.
  repeat split. discriminate.
Qed.

Lemma signAddPieces_unparsable_piece_witness :
  (length (default [] (Some [ [] ; [] ] : option (list (list MetadataEntry)))) = 0%nat
   \/ length (default [] (Some [ [] ; [] ] : option (list (list MetadataEntry))))
      = length [ PieceCID [Byte.x02]; PieceString "not-a-cid" ])
  /\ In (PieceString "not-a-cid") [ PieceCID [Byte.x02]; PieceString "not-a-cid" ]
  /\ @asPieceCID ethers0 "not-a-cid" = None
  /\ @signAddPieces ethers0 agent_helper (OfBigint 0) (OfBigint 1)
       [ PieceCID [Byte.x02]; PieceString "not-a-cid" ] (Some [ [] ; [] ]) []
     = (Throw InvalidPieceIdentifier, []).
Proof.
  split; [right; reflexivity |]. split; [simpl; auto |]. split; [reflexivity |].
  apply (@signAddPieces_unparsable_piece ethers0 agent_helper (OfBigint 0)
           (OfBigint 1) [ PieceCID [Byte.x02]; PieceString "not-a-cid" ]
           (Some [ [] ; [] ]) "not-a-cid" []);
    [right; reflexivity | simpl; auto | reflexivity].
Defined.

Lemma build_AddPieces_invariant_witness :
  let pieces := [ PieceString a_piece; PieceCID [Byte.x02] ] in
  let md := Some [ [ {| key := "withCDN"; value := "" |} ]; [] ] in
  let cids := [ {| data := [Byte.x01; Byte.x55] |}; {| data := [Byte.x02] |} ] in
  let pms := [ {| pieceIndex := 0;
                  metadata := Some [ {| key := "withCDN"; value := "" |} ] |};
               {| pieceIndex := 1; metadata := Some [] |} ] in
  @build_AddPieces ethers0 pieces md = Return (cids, pms)
  /\ (length pms = length cids
      /\ length cids = length pieces
      /\ forall i pm, pms !! i = Some pm -> pieceIndex pm = i).
Proof.
  intros pieces md cids pms. split; [reflexivity |].
  apply (@build_AddPieces_invariant ethers0 pieces md cids pms). reflexivity.
Defined.

End AuthRuns.

(** ** The session permission tracker *)

Section SessionKeyFacts.
Import SessionKey.
Context `{Chain}.

(** One sub-call per requested permission, each carrying its permission
    and allowed to fail. *)
Lemma prepare_calls_length owner signer registry permissions :
  length (prepare_calls owner signer registry permissions) = length permissions.
Proof. unfold prepare_calls. apply length_map. Qed.

Lemma prepare_calls_lookup owner signer registry permissions i permission :
  permissions !! i = Some permission ->
  prepare_calls owner signer registry permissions !! i =
  Some {| target := registry; allowFailure := true;
          callData := encodeFunctionData "authorizationExpiry"
                        [ owner; signer; permission ] |}.
Proof.
  intros Hp. unfold prepare_calls.
  change (map ?f permissions) with (f <$> permissions).
  now rewrite list_lookup_fmap, Hp.
Qed.

(** The loop never reads [success]: two answers with the same data give
    the same outcome. *)
Lemma for_results_ignores_success (f : Result3 -> Result3) results :
  (forall r, returnData (f r) = returnData r) ->
  forall n i expiries,
  for_results (f <$> results) n i expiries = for_results results n i expiries.
Proof.
  intros Hf. induction n as [| n IH]; intros i expiries; simpl; [reflexivity |].
  rewrite list_lookup_fmap. destruct (results !! i) as [r |]; simpl; [| reflexivity].
  rewrite Hf. destruct (decodeFunctionResult _ _); [apply IH | reflexivity].
Qed.

(** The first entry whose data does not decode aborts the loop, whatever
    the entries before it stored. *)
Lemma for_results_decode_failure results e :
  forall n i j expiries r,
  (i <= j < i + n)%nat ->
  results !! j = Some r ->
  decodeFunctionResult "authorizationExpiry" (returnData r) = Throw e ->
  (forall k, (i <= k < j)%nat ->
     exists r' x, results !! k = Some r'
       /\ decodeFunctionResult "authorizationExpiry" (returnData r') = Return x) ->
  for_results results n i expiries = Throw e.
Proof.
  induction n as [| n IH]; intros i j expiries r Hj Hr He Hbefore; [lia |].
  simpl. destruct (decide (i = j)) as [-> | Hne].
  - now rewrite Hr, He.
  - destruct (Hbefore i) as (r' & x & Hr' & Hx); [lia |].
    rewrite Hr', Hx. apply (IH (S i) j _ r); try assumption; [lia |].
    intros k Hk. apply Hbefore. lia.
Qed.

(** With a single requested permission, its timestamp is stored under the
    first entry of [PDP_PERMISSIONS], whichever permission was asked for. *)
Lemma fetchExpiries_single (this : SessionKey) permission network owner signer
  registry r expiry :
  getFilecoinNetworkType = Return network ->
  _owner_getAddress this = Return owner ->
  _signer_getAddress this = Return signer ->
  _registry_getAddress this = Return registry ->
  aggregate3 (MULTICALL3 network)
    (prepare_calls owner signer registry [ permission ]) = Return [ r ] ->
  decodeFunctionResult "authorizationExpiry" (returnData r) = Return expiry ->
  fetchExpiries this (Some [ permission ])
  = Return {[ CREATE_DATA_SET_TYPEHASH := expiry ]}.
Proof.
  intros Hn Ho Hs Hr Hagg Hdec. unfold fetchExpiries.
  rewrite Hn, Ho, Hs, Hr.
  change (default PDP_PERMISSIONS (Some [ permission ])) with [ permission ].
  cbv beta iota zeta. rewrite Hagg. simpl. rewrite Hdec.
  reflexivity.
Qed.

End SessionKeyFacts.

Section SessionKeyRuns.
Import SessionKey Scenario.

(** With every permission requested and every sub-call answered, each
    timestamp is stored under its own permission. *)
Example fetchExpiries_all_answered :
  exists expiries,
    @fetchExpiries healthy_chain session None = Return expiries
    /\ expiries !! @ADD_PIECES_TYPEHASH healthy_chain = Some 42%Z
    /\ expiries !! @DELETE_DATA_SET_TYPEHASH healthy_chain = Some 42%Z.
Proof. eexists. repeat split. Qed.

(** C3, where the code departs from it: the registry fails exactly the
    second of the four sub-calls (it reverts without data); the refresh
    does not complete: decoding that entry throws and [fetchExpiries]
    rejects, so no timestamp is stored for any permission. *)
Theorem fetchExpiries_one_failed_subcall :
  @aggregate3 one_failing_chain "0xca11"
     (@prepare_calls one_failing_chain "0xf39f" "0x7099" "0x97e9"
        (@PDP_PERMISSIONS one_failing_chain))
  = Return [ answered Byte.x0a; reverted; answered Byte.x1e; answered Byte.x28 ]
  /\ success reverted = false
  /\ @fetchExpiries one_failing_chain session None
     = Throw (Error "could not decode result data").
Proof. repeat split. Qed.

(** C4, where the code departs from it: only [ADD_PIECES_TYPEHASH] is
    requested; the timestamp the registry returns for it is stored under
    [CREATE_DATA_SET_TYPEHASH], and nothing is stored under the requested
    permission. *)
Theorem fetchExpiries_subset_is_misfiled :
  exists expiries,
    @fetchExpiries healthy_chain session (Some [ @ADD_PIECES_TYPEHASH healthy_chain ])
    = Return expiries
    /\ expiries !! @ADD_PIECES_TYPEHASH healthy_chain = None
    /\ expiries !! @CREATE_DATA_SET_TYPEHASH healthy_chain = Some 42%Z
    /\ @ADD_PIECES_TYPEHASH healthy_chain <> @CREATE_DATA_SET_TYPEHASH healthy_chain.
Proof. eexists. repeat split. discriminate. Qed.

End SessionKeyRuns.

(** * More of the code *)

(** ** What [collectType] keeps *)

Section ClosureFacts.
Import Eip712 Closure.

Lemma Map_get_In (m : Map) (k v : string) : Map_get m k = Some v -> In (k, v) m.
Proof.
  unfold Map_get. induction m as [| [k' v'] m IH]; simpl; [discriminate |].
  destruct (String.eqb k k') eqn:E.
  - apply String.eqb_eq in E. intros [= ->]. subst. auto.
  - auto.
Qed.

Lemma Map_has_get (m : Map) (k : string) :
  Map_has m k = true <-> exists v, Map_get m k = Some v.
Proof.
  unfold Map_has, Map_get, mem. induction m as [| [k' v'] m IH]; simpl.
  - split; [discriminate | intros [v Hv]; discriminate].
  - destruct (String.eqb k k'); simpl; [split; eauto | exact IH].
Qed.

Lemma Map_get_set (m : Map) (k v k' : string) :
  Map_get (Map_set m k v) k' = if String.eqb k' k then Some v else Map_get m k'.
Proof.
  unfold Map_get. induction m as [| [k0 v0] m IH]; simpl.
  - reflexivity.
  - destruct (String.eqb k k0) eqn:E; simpl.
    + apply String.eqb_eq in E. subst k0.
      destruct (String.eqb k' k); reflexivity.
    + rewrite IH. destruct (String.eqb k' k) eqn:E'; [| reflexivity].
      apply String.eqb_eq in E'. subst k'. now rewrite E.
Qed.

Lemma In_Map_set (m : Map) (k v : string) (e : string * string) :
  In e (Map_set m k v) -> e = (k, v) \/ In e m.
Proof.
  induction m as [| [k0 v0] m IH]; simpl.
  - intros [<- | []]. auto.
  - destruct (String.eqb k k0); simpl; intros [<- | Hin]; auto.
    destruct (IH Hin); auto.
Qed.

(** A new key goes to the end of the map. *)
Lemma keys_Map_set_new (m : Map) (k v : string) :
  Map_has m k = false -> map fst (Map_set m k v) = map fst m ++ [k].
Proof.
  unfold Map_has, mem. induction m as [| [k0 v0] m IH]; simpl; [reflexivity |].
  destruct (String.eqb k k0); simpl; [discriminate |].
  intros Hnew. now rewrite (IH Hnew).
Qed.

(** The loop keeps whatever every call of [collectType] keeps. *)
Lemma for_of_invariant (f : string -> Map -> option (Result Map))
  (P : Map -> Prop) :
  (forall t m m', f t m = Some (Return m') -> P m -> P m') ->
  forall args m m', for_of f args m = Some (Return m') -> P m -> P m'.
Proof.
  intros Hf. induction args as [| arg rest IH]; intros m m'; simpl.
  - now intros [= <-].
  - destruct (f (baseType_of arg) m) as [[m1 | e] |] eqn:E; try discriminate.
    intros Hrest Hm. apply (IH _ _ Hrest). apply (Hf _ _ _ E Hm).
Qed.

(** What a call that returned did to the map, by cases on its guard. *)
Lemma collectType_Return (n : nat) t m m' :
  collectType (S n) t m = Some (Return m') ->
  (m' = m /\ (Map_has m t = true \/ in_EIP712_TYPES t = false))
  \/ (Map_has m t = false
      /\ exists args, assoc t EIP712_TYPES = Some args
         /\ for_of (collectType n) args (Map_set m t (fragment t args))
            = Some (Return m')).
Proof.
  simpl. destruct (Map_has m t) eqn:Hhas; simpl.
  - intros [= <-]. auto.
  - destruct (in_EIP712_TYPES t); simpl; [| intros [= <-]; auto].
    unfold get_property. destruct (assoc t EIP712_TYPES) as [args |] eqn:Hargs.
    + intros Hloop. right. eauto.
    + destruct (mem t Object_prototype); discriminate.
Qed.

Lemma collectType_invariant (P : Map -> Prop) :
  (forall m t args, P m -> Map_has m t = false ->
     assoc t EIP712_TYPES = Some args -> P (Map_set m t (fragment t args))) ->
  forall n t m m', collectType n t m = Some (Return m') -> P m -> P m'.
Proof.
  intros Hset. induction n as [| n IH]; intros t m m' Hrun Hm; [discriminate |].
  apply collectType_Return in Hrun as [[-> _] | (Hnew & args & Hargs & Hloop)];
    [assumption |].
  apply (for_of_invariant _ P IH _ _ _ Hloop). now apply Hset.
Qed.

Lemma assoc_is_key (t : string) (args : list TypeField) :
  assoc t EIP712_TYPES = Some args ->
  is_key t = true /\ fragment_of t = fragment t args.
Proof.
  intros Hargs. split.
  - unfold is_key. apply mem_In. now apply (assoc_Some_In _ _ args).
  - unfold fragment_of. now rewrite Hargs.
Qed.

Lemma extends_Map_set (m0 m : Map) (t v : string) :
  extends m0 m -> Map_has m t = false -> extends m0 (Map_set m t v).
Proof.
  intros Hext Hnew k x Hk. rewrite Map_get_set.
  destruct (String.eqb k t) eqn:E; [| auto].
  apply String.eqb_eq in E. subst k. apply Hext in Hk.
  assert (Map_has m t = true) by (apply Map_has_get; eauto). congruence.
Qed.

Lemma NoDup_snoc (l : list string) (k : string) :
  mem k l = false -> List.NoDup l -> List.NoDup (l ++ [k]).
Proof.
  intros Hnew Hnd. induction Hnd as [| x l Hx Hnd IH]; simpl.
  - constructor; [intros [] | constructor].
  - simpl in Hnew. apply orb_false_iff in Hnew as [Hkx Hkl].
    constructor; [| auto].
    rewrite in_app_iff. intros [Hin | [-> | []]]; [contradiction |].
    now rewrite String.eqb_refl in Hkx.
Qed.

Lemma collectType_extends (n : nat) (t : string) (m m' : Map) :
  collectType n t m = Some (Return m') -> extends m m'.
Proof.
  intros Hrun.
  apply (collectType_invariant (extends m)) with (n := n) (t := t) (m := m);
    [| assumption | intros k v; auto].
  intros m1 t1 args Hext Hnew _. now apply extends_Map_set.
Qed.

(** X1: a call of [collectType] that returns has only added to [typeMap]:
    every entry it found is still there with the same string, and the keys
    stay pairwise distinct. *)
Theorem collectType_only_adds (n : nat) (t : string) (m m' : Map) :
  collectType n t m = Some (Return m') ->
  extends m m' /\ (List.NoDup (map fst m) -> List.NoDup (map fst m')).
Proof.
  intros Hrun. split; [now apply (collectType_extends n t) |].
  apply (collectType_invariant (fun m => List.NoDup (map fst m)))
    with (n := n) (t := t); [| assumption].
  intros m1 t1 args Hnd Hnew _. rewrite (keys_Map_set_new _ _ _ Hnew).
  now apply NoDup_snoc.
Qed.

Lemma collectType_only_adds_witness :
  collectType 3 "PieceMetadata" [ ("Cid", "Cid(bytes data)") ]
  = Some (Return [ ("Cid", "Cid(bytes data)");
                   ("PieceMetadata", "PieceMetadata(uint256 pieceIndex,MetadataEntry[] metadata)");
                   ("MetadataEntry", "MetadataEntry(string key,string value)") ])
  /\ extends [ ("Cid", "Cid(bytes data)") ]
       [ ("Cid", "Cid(bytes data)");
         ("PieceMetadata", "PieceMetadata(uint256 pieceIndex,MetadataEntry[] metadata)");
         ("MetadataEntry", "MetadataEntry(string key,string value)") ].
Proof.
  split; [reflexivity |].
  apply (collectType_only_adds 3 "PieceMetadata" [ ("Cid", "Cid(bytes data)") ]).
  reflexivity.
Defined.

Lemma collectType_has (n : nat) (t : string) (m m' : Map) :
  collectType n t m = Some (Return m') ->
  is_key t = true ->
  exists v, Map_get m' t = Some v.
Proof.
  intros Hrun Hkey. destruct n as [| n]; [discriminate |].
  apply collectType_Return in Hrun
    as [[-> [Hhas | Hout]] | (Hnew & args & Hargs & Hloop)].
  - now apply Map_has_get.
  - rewrite in_EIP712_TYPES_spec, Hkey in Hout. discriminate.
  - exists (fragment t args).
    apply (for_of_invariant (collectType n)
             (fun m1 => Map_get m1 t = Some (fragment t args))
             (fun t1 m1 m2 Hr => collectType_extends _ _ _ _ Hr _ _)
             _ _ _ Hloop).
    rewrite Map_get_set. now rewrite String.eqb_refl.
Qed.

Lemma collectType_preserves_well_formed (n : nat) (t : string) (m m' : Map) :
  collectType n t m = Some (Return m') -> well_formed m -> well_formed m'.
Proof.
  intros Hrun.
  apply (collectType_invariant well_formed) with (n := n) (t := t);
    [| assumption].
  intros m1 t1 args Hwf1 _ Hargs k v Hin.
  apply In_Map_set in Hin as [[= -> ->] | Hin]; [| auto].
  destruct (assoc_is_key _ _ Hargs). auto.
Qed.

(** X2: [collectType] keeps the map well formed (every entry is a key of
    the registry with that key's own fragment), and when it returns for a
    key of the registry, the fragment of that key is in the map. *)
Theorem collectType_well_formed (n : nat) (t : string) (m m' : Map) :
  collectType n t m = Some (Return m') ->
  well_formed m ->
  well_formed m'
  /\ (is_key t = true -> Map_get m' t = Some (fragment_of t)).
Proof.
  intros Hrun Hwf.
  pose proof (collectType_preserves_well_formed _ _ _ _ Hrun Hwf) as Hwf'.
  split; [assumption |]. intros Hkey.
  destruct (collectType_has _ _ _ _ Hrun Hkey) as [v Hv]. rewrite Hv. f_equal.
  now destruct (Hwf' _ _ (Map_get_In _ _ _ Hv)).
Qed.

Lemma collectType_well_formed_witness :
  collectType 2 "Cid" [] = Some (Return [ ("Cid", "Cid(bytes data)") ])
  /\ well_formed []
  /\ (well_formed [ ("Cid", "Cid(bytes data)") ]
      /\ (is_key "Cid" = true ->
          Map_get [ ("Cid", "Cid(bytes data)") ] "Cid" = Some (fragment_of "Cid"))).
Proof.
  split; [reflexivity |]. split; [intros k v [] |].
  apply (collectType_well_formed 2 "Cid" []); [reflexivity | intros k v []].
Defined.

(** The only exception [collectType] raises is the one of an inherited
    property. *)
Lemma collectType_Throw (n : nat) :
  forall t m e, collectType n t m = Some (Throw e) ->
  e = TypeError "args.map is not a function".
Proof.
  induction n as [| n IH]; intros t m e; [discriminate |]. simpl.
  destruct (Map_has m t || negb (in_EIP712_TYPES t)); [discriminate |].
  destruct (get_property t) as [args | |]; try (now intros [= <-]).
  generalize (Map_set m t (fragment t args)). clear m.
  induction args as [| arg rest IHargs]; intros m; simpl; [discriminate |].
  destruct (collectType n (baseType_of arg) m) as [[m1 | e1] |] eqn:E.
  - apply IHargs.
  - intros [= <-]. now apply (IH _ _ _ E).
  - discriminate.
Qed.

(** X3: the error of line 76, [Failed to build type string], is never
    raised: whenever the collection returns, the root's entry is there. *)
Theorem getEIP712TypeString_never_fails_to_build (fuel : nat) (rootType : string) :
  getEIP712TypeString_fuel fuel rootType
  <> Some (Throw (Error ("Failed to build type string for " +:+ rootType))).
Proof.
  unfold getEIP712TypeString_fuel.
  destruct (in_EIP712_TYPES rootType) eqn:Hin; simpl; [| discriminate].
  destruct (collectType fuel rootType []) as [[typeMap | e] |] eqn:Hrun;
    [| | discriminate].
  - destruct (Map_get typeMap rootType) eqn:Hget; [discriminate |].
    exfalso. destruct fuel as [| fuel]; [discriminate |].
    apply collectType_Return in Hrun
      as [[-> [Hhas | Hout]] | (Hnew & args & Hargs & Hloop)];
      [discriminate | congruence |].
    assert (Hroot : Map_get typeMap rootType = Some (fragment rootType args)).
    { apply (for_of_invariant (collectType fuel)
               (fun m1 => Map_get m1 rootType = Some (fragment rootType args))
               (fun t1 m1 m2 Hr => collectType_extends _ _ _ _ Hr _ _)
               _ _ _ Hloop).
      rewrite Map_get_set. now rewrite String.eqb_refl. }
    congruence.
  - apply collectType_Throw in Hrun. subst e. discriminate.
Qed.

(** X4: [getEIP712TypeString] fails with the does-not-exist error exactly
    for the names that are neither a key of the registry nor a property
    inherited from [Object.prototype]. *)
Theorem getEIP712TypeString_unknown_iff (rootType : string) :
  getEIP712TypeString rootType = Some (Throw (SchemaNotFound rootType))
  <-> is_key rootType = false /\ mem rootType Object_prototype = false.
Proof.
  rewrite <- orb_false_iff, <- in_EIP712_TYPES_spec. split.
  - intros Hthrow. destruct (in_EIP712_TYPES rootType) eqn:Hin; [| reflexivity].
    rewrite in_EIP712_TYPES_spec in Hin. apply orb_true_iff in Hin as [Hkey | Hproto].
    + destruct (getEIP712TypeString_key _ Hkey) as [str Hstr]. congruence.
    + rewrite (getEIP712TypeString_inherited _ Hproto) in Hthrow. discriminate.
  - apply getEIP712TypeString_unknown.
Qed.

(** X21: for every key of the registry the collection ends within the
    depth bound, the number of keys plus one, and [getEIP712TypeString]
    returns a string, the same one for every larger bound. *)
Theorem getEIP712TypeString_returns_for_keys (rootType : string) :
  is_key rootType = true ->
  exists str,
    forall n, (depth <= n)%nat ->
    getEIP712TypeString_fuel n rootType = Some (Return str).
Proof.
  intros Hkey. destruct (getEIP712TypeString_key _ Hkey) as [str Hstr].
  exists str. intros n Hn.
  now apply (getEIP712TypeString_fuel_le depth n).
Qed.

Lemma getEIP712TypeString_returns_for_keys_witness :
  is_key "SchedulePieceRemovals" = true
  /\ exists str,
       forall n, (depth <= n)%nat ->
       getEIP712TypeString_fuel n "SchedulePieceRemovals" = Some (Return str).
Proof.
  split; [reflexivity |].
  apply (getEIP712TypeString_returns_for_keys "SchedulePieceRemovals").
  reflexivity.
Defined.

(** *** The shape of the encoded type string *)






End ClosureFacts.

(** ** What a refresh stores *)

Section RefreshFacts.
Import SessionKey Refresh.
Context `{Chain}.

Lemma fetchExpiries_answered (this : SessionKey) (permissions : option (list string))
  (results : list Result3) :
  answered this (default PDP_PERMISSIONS permissions) results ->
  fetchExpiries this permissions
  = for_results results (length (default PDP_PERMISSIONS permissions)) 0 ∅.
Proof.
  intros (network & o & sg & rg & Hn & Ho & Hs & Hr & Hagg).
  unfold fetchExpiries. rewrite Hn, Ho, Hs, Hr. cbv beta iota zeta.
  now rewrite Hagg.
Qed.

(** A refresh that returned was answered. *)
Lemma fetchExpiries_Return (this : SessionKey) (permissions : option (list string))
  (m : gmap string Z) :
  fetchExpiries this permissions = Return m ->
  exists results,
    answered this (default PDP_PERMISSIONS permissions) results
    /\ for_results results (length (default PDP_PERMISSIONS permissions)) 0 ∅
       = Return m.
Proof.
  unfold fetchExpiries, answered.
  destruct getFilecoinNetworkType as [network |]; [| discriminate].
  destruct (_owner_getAddress this) as [o |]; [| discriminate].
  destruct (_signer_getAddress this) as [sg |];
    [| destruct (_registry_getAddress this); discriminate].
  destruct (_registry_getAddress this) as [rg |]; [| discriminate].
  cbv beta iota zeta.
  destruct (aggregate3 _ _) as [results |] eqn:Hagg; [| discriminate].
  intros Hloop. exists results. split; [| assumption].
  exists network, o, sg, rg. auto.
Qed.

(** The keys the loop does not write keep their entry. *)
Lemma for_results_other results :
  forall n i expiries m k,
  for_results results n i expiries = Return m ->
  (forall j, (i <= j < i + n)%nat -> key_at PDP_PERMISSIONS j <> k) ->
  m !! k = expiries !! k.
Proof.
  induction n as [| n IH]; intros i expiries m k; simpl.
  - now intros [= <-].
  - destruct (results !! i) as [r |]; [| discriminate].
    destruct (decodeFunctionResult _ _) as [x |]; [| discriminate].
    intros Hrun Hother. rewrite (IH _ _ _ _ Hrun).
    + apply lookup_insert_ne. apply Hother. lia.
    + intros j Hj. apply Hother. lia.
Qed.

(** The entry of round [j] is what its sub-call returned, unless a later
    round writes the same key. *)
Lemma for_results_stored results :
  forall n i expiries m j,
  for_results results n i expiries = Return m ->
  (i <= j < i + n)%nat ->
  (forall j', (j < j' < i + n)%nat ->
     key_at PDP_PERMISSIONS j' <> key_at PDP_PERMISSIONS j) ->
  exists r x,
    results !! j = Some r
    /\ decodeFunctionResult "authorizationExpiry" (returnData r) = Return x
    /\ m !! key_at PDP_PERMISSIONS j = Some x.
Proof.
  induction n as [| n IH]; intros i expiries m j; simpl; [lia |].
  destruct (results !! i) as [r |] eqn:Hr; [| discriminate].
  destruct (decodeFunctionResult _ _) as [x |] eqn:Hx; [| discriminate].
  intros Hrun Hj Hlater. destruct (decide (j = i)) as [-> | Hne].
  - exists r, x. repeat split; try assumption.
    rewrite (for_results_other _ _ _ _ _ _ Hrun).
    + apply lookup_insert_eq.
    + intros j' Hj'. apply Hlater. lia.
  - apply (IH _ _ _ _ Hrun); [lia |]. intros j' Hj'. apply Hlater. lia.
Qed.

Lemma for_results_keys results :
  forall n i expiries m k,
  for_results results n i expiries = Return m ->
  is_Some (m !! k) <->
  is_Some (expiries !! k)
  \/ exists j, (i <= j < i + n)%nat /\ k = key_at PDP_PERMISSIONS j.
Proof.
  induction n as [| n IH]; intros i expiries m k; simpl.
  - intros [= <-]. split; [auto | intros [? | (j & ? & _)]; [assumption | lia]].
  - destruct (results !! i) as [r |]; [| discriminate].
    destruct (decodeFunctionResult _ _) as [x |]; [| discriminate].
    intros Hrun. rewrite (IH _ _ _ k Hrun). rewrite lookup_insert.
    destruct (decide (key_at PDP_PERMISSIONS i = k)) as [<- | Hne]; split.
    + intros _. right. exists i. split; [lia | reflexivity].
    + intros _. left. eauto.
    + intros [? | (j & Hj & ->)]; [auto |]. right. exists j. split; [lia | auto].
    + intros [? | (j & Hj & ->)]; [auto |].
      destruct (decide (j = i)) as [-> | Hji]; [congruence |].
      right. exists j. split; [lia | auto].
Qed.

(** The loop returns when every entry it reads is there and decodes. *)
Lemma for_results_total results :
  forall n i expiries,
  (forall j, (i <= j < i + n)%nat ->
     exists r x, results !! j = Some r
       /\ decodeFunctionResult "authorizationExpiry" (returnData r) = Return x) ->
  exists m, for_results results n i expiries = Return m.
Proof.
  induction n as [| n IH]; intros i expiries Hall; simpl; [eauto |].
  destruct (Hall i) as (r & x & -> & ->); [lia |].
  apply IH. intros j Hj. apply Hall. lia.
Qed.


Lemma key_at_lookup (l : list string) (j : nat) (k : string) :
  l !! j = Some k -> key_at l j = k.
Proof. unfold key_at. now intros ->. Qed.

Lemma key_at_NoDup (l : list string) (j j' : nat) :
  NoDup l -> (j < length l)%nat -> (j' < length l)%nat -> j <> j' ->
  key_at l j <> key_at l j'.
Proof.
  intros Hnd Hj Hj' Hne Heq.
  destruct (lookup_lt_is_Some_2 l j Hj) as [k Hk].
  destruct (lookup_lt_is_Some_2 l j' Hj') as [k' Hk'].
  rewrite (key_at_lookup _ _ _ Hk), (key_at_lookup _ _ _ Hk') in Heq.
  apply Hne.
  apply (NoDup_lookup l j j' k); [assumption | assumption | congruence].
Qed.

End RefreshFacts.

Section RefreshTheorems.
Import SessionKey Refresh.
Context `{Chain}.

(** X6: the keys of the record a refresh returns are the first [n] entries
    of [PDP_PERMISSIONS], [n] the number of permissions requested (and the
    key [undefined] from the fifth on): they depend on how many
    permissions were requested, not on which. *)
Theorem fetchExpiries_keys (this : SessionKey) (permissions : option (list string))
  (m : gmap string Z) :
  fetchExpiries this permissions = Return m ->
  forall k,
    is_Some (m !! k) <->
    exists j, (j < length (default PDP_PERMISSIONS permissions))%nat
              /\ k = key_at PDP_PERMISSIONS j.
Proof.
  intros Hrun k. apply fetchExpiries_Return in Hrun as (results & _ & Hloop).
  rewrite (for_results_keys _ _ _ _ _ k Hloop). rewrite lookup_empty. split.
  - intros [[? [=]] | (j & Hj & ->)]. exists j. split; [lia | reflexivity].
  - intros (j & Hj & ->). right. exists j. split; [lia | reflexivity].
Qed.

(** X7: with at most four permissions requested and four distinct type
    hashes, the timestamp decoded from the [j]-th sub-call, the one issued
    for the [j]-th requested permission, is stored under the [j]-th entry
    of [PDP_PERMISSIONS]. *)
Theorem fetchExpiries_positional (this : SessionKey) (permissions : list string)
  (results : list Result3) (m : gmap string Z) :
  NoDup PDP_PERMISSIONS ->
  (length permissions <= 4)%nat ->
  answered this permissions results ->
  fetchExpiries this (Some permissions) = Return m ->
  forall j, (j < length permissions)%nat ->
    exists r x k,
      results !! j = Some r
      /\ decodeFunctionResult "authorizationExpiry" (returnData r) = Return x
      /\ PDP_PERMISSIONS !! j = Some k
      /\ m !! k = Some x.
Proof.
  intros Hnd Hlen Hans Hrun j Hj.
  rewrite (fetchExpiries_answered this (Some permissions) results Hans) in Hrun.
  simpl in Hrun.
  destruct (for_results_stored _ _ _ _ _ j Hrun) as (r & x & Hr & Hx & Hm);
    [lia | |].
  - intros j' Hj'. apply key_at_NoDup; try assumption; simpl; lia.
  - destruct (lookup_lt_is_Some_2 PDP_PERMISSIONS j) as [k Hk]; [simpl; lia |].
    exists r, x, k. rewrite (key_at_lookup _ _ _ Hk) in Hm. auto.
Qed.

(** X8: with every permission requested (the default), four distinct type
    hashes and four answers that decode, the refresh returns and every
    permission has the timestamp decoded from its own sub-call. *)
Theorem fetchExpiries_default (this : SessionKey) (results : list Result3) :
  NoDup PDP_PERMISSIONS ->
  answered this PDP_PERMISSIONS results ->
  (forall j, (j < 4)%nat ->
     exists r x, results !! j = Some r
       /\ decodeFunctionResult "authorizationExpiry" (returnData r) = Return x) ->
  exists m,
    fetchExpiries this None = Return m
    /\ forall j permission r x,
         PDP_PERMISSIONS !! j = Some permission ->
         results !! j = Some r ->
         decodeFunctionResult "authorizationExpiry" (returnData r) = Return x ->
         m !! permission = Some x.
Proof.
  intros Hnd Hans Hall.
  rewrite (fetchExpiries_answered this None results Hans).
  destruct (for_results_total results 4 0 ∅) as [m Hrun];
    [intros j Hj; apply Hall; lia |].
  exists m. split; [exact Hrun |].
  intros j permission r x Hp Hr Hx.
  assert (Hj : (j < 4)%nat) by (apply lookup_lt_Some in Hp; exact Hp).
  destruct (for_results_stored _ _ _ _ _ j Hrun) as (r' & x' & Hr' & Hx' & Hm);
    [lia | |].
  - intros j' Hj'. apply key_at_NoDup; try assumption; simpl; lia.
  - rewrite (key_at_lookup _ _ _ Hp) in Hm. congruence.
Qed.

(** X9: when the data of some answered sub-call does not decode, and the
    ones before it do, the refresh rejects with the decoder's error and
    returns no record at all. *)
Theorem fetchExpiries_decode_failure (this : SessionKey) (permissions : list string)
  (results : list Result3) (j : nat) (r : Result3) (e : JsError) :
  answered this permissions results ->
  (j < length permissions)%nat ->
  results !! j = Some r ->
  decodeFunctionResult "authorizationExpiry" (returnData r) = Throw e ->
  (forall k, (k < j)%nat ->
     exists r' x, results !! k = Some r'
       /\ decodeFunctionResult "authorizationExpiry" (returnData r') = Return x) ->
  fetchExpiries this (Some permissions) = Throw e.
Proof.
  intros Hans Hj Hr He Hbefore.
  rewrite (fetchExpiries_answered this (Some permissions) results Hans). simpl.
  apply (for_results_decode_failure results e _ 0 j _ r); try assumption; [lia |].
  intros k Hk. apply Hbefore. lia.
Qed.


End RefreshTheorems.

(** X11: a refresh never looks at the [success] flags: changing the
    entries of the answer in any way that keeps their [returnData] changes
    neither the outcome nor the record. *)
Theorem fetchExpiries_ignores_success (c : SessionKey.Chain)
  (f : SessionKey.Result3 -> SessionKey.Result3)
  (this : SessionKey.SessionKey) (permissions : option (list string)) :
  (forall r, SessionKey.returnData (f r) = SessionKey.returnData r) ->
  @SessionKey.fetchExpiries (Refresh.with_results f c) this permissions
  = @SessionKey.fetchExpiries c this permissions.
Proof.
  intros Hf. unfold SessionKey.fetchExpiries. simpl.
  destruct (@SessionKey.getFilecoinNetworkType c); [| reflexivity].
  destruct (SessionKey._owner_getAddress this); [| reflexivity].
  destruct (SessionKey._signer_getAddress this); [| reflexivity].
  destruct (SessionKey._registry_getAddress this); [| reflexivity].
  destruct (@SessionKey.aggregate3 c _ _) as [results |]; [| reflexivity].
  apply (@for_results_ignores_success c f results Hf).
Qed.

(** ** The session key that keeps its expiries (earlier revisions) *)

Section KeyRevFacts.
Import SessionKey Refresh.

(** X12: the four type strings written out in [unnamed/part_001] are the
    ones [getEIP712TypeString] computes for the four operations, so the
    module of [unnamed/part_000] loads and both revisions name the same
    four permissions, in the same order, whatever the digest function. *)
Theorem PDP_PERMISSIONS_agree (ethers_id : string -> string) :
  KeyRev0.PDP_PERMISSIONS_loaded ethers_id
  = Some (Return (KeyRev1.PDP_PERMISSIONS ethers_id)).
Proof. vm_compute. reflexivity. Qed.

Context `{Chain} (PDP_PERMISSIONS : list string).

(** What the loop has done when it stops: [d] rounds, each of which stored
    the timestamp of its sub-call; every other key is as before; it
    returns when all [n] rounds are done and throws at the first entry
    that is missing or does not decode. *)
Lemma rev0_for_results_spec (results : list Result3) :
  forall n i e r e',
  KeyRev0.for_results PDP_PERMISSIONS results n i e = (r, e') ->
  exists d, (d <= n)%nat
    /\ (forall j, (i <= j < i + d)%nat ->
          exists rj x,
            results !! j = Some rj
            /\ decodeFunctionResult "authorizationExpiry" (returnData rj) = Return x
            /\ ((forall j', (j < j' < i + d)%nat ->
                   key_at PDP_PERMISSIONS j' <> key_at PDP_PERMISSIONS j) ->
                e' !! key_at PDP_PERMISSIONS j = Some (Some x)))
    /\ (forall k, (forall j, (i <= j < i + d)%nat -> key_at PDP_PERMISSIONS j <> k) ->
          e' !! k = e !! k)
    /\ match r with
       | Return _ => d = n
       | Throw err =>
           (d < n)%nat
           /\ ((results !! (i + d)%nat = None
                /\ err = TypeError "Cannot read properties of undefined (reading 'returnData')")
               \/ exists rj, results !! (i + d)%nat = Some rj
                    /\ decodeFunctionResult "authorizationExpiry" (returnData rj)
                       = Throw err)
       end.
Proof.
  induction n as [| n IH]; intros i e r e'; simpl.
  - intros [= <- <-]. exists 0%nat.
    repeat split; try lia; auto; intros j Hj; lia.
  - destruct (results !! i) as [ri |] eqn:Hri.
    + destruct (decodeFunctionResult _ _) as [x | err] eqn:Hx.
      * intros Hrun. apply IH in Hrun as (d & Hd & Hstored & Hother & Hend).
        exists (S d). split; [lia |]. split; [| split].
        -- intros j Hj. destruct (decide (j = i)) as [-> | Hne].
           ++ exists ri, x. repeat split; try assumption.
              intros Hlater. rewrite Hother.
              ** apply lookup_insert_eq.
              ** intros j' Hj'. apply Hlater. lia.
           ++ destruct (Hstored j) as (rj & y & Hrj & Hy & Hlook); [lia |].
              exists rj, y. repeat split; try assumption.
              intros Hlater. apply Hlook. intros j' Hj'. apply Hlater. lia.
        -- intros k Hk. rewrite Hother.
           ++ apply lookup_insert_ne. apply Hk. lia.
           ++ intros j Hj. apply Hk. lia.
        -- destruct r as [u | err]; [lia |].
           destruct Hend as [Hlt Hfail]. split; [lia |].
           replace (i + S d)%nat with (S i + d)%nat by lia. exact Hfail.
      * intros [= <- <-]. exists 0%nat.
        split; [lia |]. split; [intros j Hj; lia |]. split; [auto |].
        split; [lia |]. right. exists ri. rewrite Nat.add_0_r. auto.
    + intros [= <- <-]. exists 0%nat.
      split; [lia |]. split; [intros j Hj; lia |]. split; [auto |].
      split; [lia |]. left. rewrite Nat.add_0_r. auto.
Qed.

Lemma rev0_fetchExpiries_answered (this : KeyRev0.SessionKey)
  (results : list Result3) :
  answered (KeyRev0.parties this) PDP_PERMISSIONS results ->
  KeyRev0.fetchExpiries PDP_PERMISSIONS this
  = (let (r, e) := KeyRev0.for_results PDP_PERMISSIONS results
                     (length PDP_PERMISSIONS) 0 (KeyRev0.expiries this) in
     (r, KeyRev0.with_expiries this e)).
Proof.
  intros (network & o & sg & rg & Hn & Ho & Hs & Hr & Hagg).
  unfold KeyRev0.fetchExpiries. rewrite Hn, Ho, Hs, Hr. cbv beta iota zeta.
  now rewrite Hagg.
Qed.

(** X13: a refresh of the earlier revisions that returns has stored, for
    every permission, the timestamp decoded from that permission's own
    sub-call, and has left every other key of the cache as it was. *)
Theorem rev0_fetchExpiries_stores (this this' : KeyRev0.SessionKey)
  (results : list Result3) :
  NoDup PDP_PERMISSIONS ->
  answered (KeyRev0.parties this) PDP_PERMISSIONS results ->
  KeyRev0.fetchExpiries PDP_PERMISSIONS this = (Return tt, this') ->
  (forall j permission,
     PDP_PERMISSIONS !! j = Some permission ->
     exists r x,
       results !! j = Some r
       /\ decodeFunctionResult "authorizationExpiry" (returnData r) = Return x
       /\ KeyRev0.expiries this' !! permission = Some (Some x))
  /\ (forall k, k ∉ PDP_PERMISSIONS ->
        KeyRev0.expiries this' !! k = KeyRev0.expiries this !! k).
Proof.
  intros Hnd Hans. rewrite (rev0_fetchExpiries_answered _ _ Hans).
  destruct (KeyRev0.for_results _ _ _ _ _) as [r e'] eqn:Hrun.
  intros [= -> <-]. simpl.
  apply rev0_for_results_spec in Hrun as (d & _ & Hstored & Hother & ->).
  split.
  - intros j permission Hp.
    assert (Hj : (j < length PDP_PERMISSIONS)%nat) by (now apply lookup_lt_Some in Hp).
    destruct (Hstored j) as (r & x & Hr & Hx & Hlook); [lia |].
    exists r, x. repeat split; try assumption.
    rewrite <- (key_at_lookup _ _ _ Hp). apply Hlook.
    intros j' Hj'. apply key_at_NoDup; try assumption; lia.
  - intros k Hk. apply Hother. intros j Hj Heq. apply Hk.
    destruct (lookup_lt_is_Some_2 PDP_PERMISSIONS j) as [p Hp]; [lia |].
    rewrite (key_at_lookup _ _ _ Hp) in Heq. subst p.
    apply list_elem_of_lookup. eauto.
Qed.

(** X14: a refresh of the earlier revisions is not atomic. When the data of
    the [j]-th sub-call does not decode and the ones before it do, the
    refresh rejects with the decoder's error, the permissions before the
    [j]-th have their new timestamps in the cache, and the [j]-th and the
    later ones keep their old entries. *)
Theorem rev0_fetchExpiries_partial (this : KeyRev0.SessionKey)
  (results : list Result3) (j : nat) (r : Result3) (e : JsError) :
  NoDup PDP_PERMISSIONS ->
  answered (KeyRev0.parties this) PDP_PERMISSIONS results ->
  (j < length PDP_PERMISSIONS)%nat ->
  results !! j = Some r ->
  decodeFunctionResult "authorizationExpiry" (returnData r) = Throw e ->
  (forall i, (i < j)%nat ->
     exists ri x, results !! i = Some ri
       /\ decodeFunctionResult "authorizationExpiry" (returnData ri) = Return x) ->
  exists this',
    KeyRev0.fetchExpiries PDP_PERMISSIONS this = (Throw e, this')
    /\ (forall i permission, (i < j)%nat ->
          PDP_PERMISSIONS !! i = Some permission ->
          exists ri x,
            results !! i = Some ri
            /\ decodeFunctionResult "authorizationExpiry" (returnData ri) = Return x
            /\ KeyRev0.expiries this' !! permission = Some (Some x))
    /\ (forall i permission, (j <= i)%nat ->
          PDP_PERMISSIONS !! i = Some permission ->
          KeyRev0.expiries this' !! permission
          = KeyRev0.expiries this !! permission).
Proof.
  intros Hnd Hans Hj Hr He Hbefore. rewrite (rev0_fetchExpiries_answered _ _ Hans).
  destruct (KeyRev0.for_results _ _ _ _ _) as [res e'] eqn:Hrun.
  apply rev0_for_results_spec in Hrun as (d & Hd & Hstored & Hother & Hend).
  simpl in Hstored, Hother, Hend.
  assert (Hdj : d = j /\ res = Throw e).
  { destruct res as [u | err].
    - subst d. destruct (Hstored j) as (rj & x & Hrj & Hx & _); [lia |]. congruence.
    - destruct Hend as [Hlt Hfail].
      destruct (Nat.lt_trichotomy d j) as [Hlo | [-> | Hhi]].
      + destruct (Hbefore d Hlo) as (rd & x & Hrd & Hx).
        destruct Hfail as [[Hnone _] | (rd' & Hrd' & Hthrow)]; congruence.
      + destruct Hfail as [[Hnone _] | (rj & Hrj & Hthrow)]; [congruence |].
        split; [reflexivity |]. congruence.
      + destruct (Hstored j) as (rj & x & Hrj & Hx & _); [lia |]. congruence. }
  destruct Hdj as [-> ->]. eexists. split; [reflexivity |]. simpl. split.
  - intros i permission Hi Hp.
    destruct (Hstored i) as (ri & x & Hri & Hx & Hlook); [lia |].
    exists ri, x. repeat split; try assumption.
    rewrite <- (key_at_lookup _ _ _ Hp). apply Hlook.
    intros j' Hj'. apply key_at_NoDup; try assumption; lia.
  - intros i permission Hi Hp. apply Hother. intros i' Hi'.
    rewrite <- (key_at_lookup _ _ _ Hp).
    assert (i < length PDP_PERMISSIONS)%nat by (now apply lookup_lt_Some in Hp).
    apply key_at_NoDup; try assumption; lia.
Qed.


End KeyRevFacts.

(** ** What a signing operation does to the world *)

Section InteractionFacts.
Import Auth Spec Interaction.
Context `{Ethers}.

Lemma emits_ret {A} (n : nat) (W : Event -> Prop) (a : A) : emits n W (ret a).
Proof.
  intros t r t' [= <- <-]. exists []. rewrite app_nil_r. simpl.
  repeat split; [lia | constructor].
Qed.

Lemma emits_lift {A} (n : nat) (W : Event -> Prop) (x : Result A) :
  emits n W (lift x).
Proof.
  intros t r t' [= <- <-]. exists []. rewrite app_nil_r. simpl.
  repeat split; [lia | constructor].
Qed.

Lemma emits_throw {A} (n : nat) (W : Event -> Prop) (e : JsError) :
  emits n W (@throw A e).
Proof.
  intros t r t' [= <- <-]. exists []. rewrite app_nil_r. simpl.
  repeat split; [lia | constructor].
Qed.

Lemma emits_emit (n : nat) (W : Event -> Prop) (e : Event) :
  W e -> ((if is_signing e then 1 else 0) <= n)%nat -> emits n W (emit e).
Proof.
  intros He Hn t r t' [= <- <-]. exists [e]. simpl.
  repeat split; [destruct (is_signing e); simpl; lia | constructor; auto].
Qed.

Lemma emits_bind {A B} (a b n : nat) (W : Event -> Prop) (m : M A) (k : A -> M B) :
  emits a W m -> (forall x, emits b W (k x)) -> (a + b <= n)%nat ->
  emits n W (bind m k).
Proof.
  intros Hm Hk Hn t r t'. unfold bind.
  destruct (m t) as [[x | e] t1] eqn:Hrun.
  - destruct (Hm _ _ _ Hrun) as (evs1 & -> & Hc1 & Hw1).
    intros Hrun2. destruct (Hk _ _ _ _ Hrun2) as (evs2 & -> & Hc2 & Hw2).
    exists (evs1 ++ evs2). rewrite app_assoc. split; [reflexivity |].
    rewrite List.filter_app, length_app. split; [lia |].
    apply Forall_app. auto.
  - destruct (Hm _ _ _ Hrun) as (evs1 & -> & Hc1 & Hw1).
    intros [= <- <-]. exists evs1. repeat split; [lia | assumption].
Qed.

(** Under a [lift], the continuation runs only on what was returned. *)
Lemma emits_bind_lift {A B} (n : nat) (W : Event -> Prop) (x : Result A)
  (k : A -> M B) :
  (forall a, x = Return a -> emits n W (k a)) -> emits n W (bind (lift x) k).
Proof.
  intros Hk t r t'. unfold bind, lift. destruct x as [a | e].
  - apply Hk. reflexivity.
  - intros [= <- <-]. exists []. rewrite app_nil_r. simpl.
    repeat split; [lia | constructor].
Qed.

Lemma emits_log_then {A} (n : nat) (W : Event -> Prop) (msg : string) (k : M A) :
  W (console_log msg) -> emits n W k ->
  emits n W (bind (emit (console_log msg)) (fun _ => k)).
Proof.
  intros Hw Hk. apply (emits_bind 0 n); [| auto | lia].
  apply emits_emit; [assumption | simpl; lia].
Qed.

(** The probe only writes to the console. *)
Lemma isMetaMaskSigner_emits (this : PDPAuthHelper) (W : Event -> Prop) :
  (forall msg, W (console_log msg)) -> emits 0 W (isMetaMaskSigner this).
Proof.
  intros Hw. unfold isMetaMaskSigner.
  apply emits_log_then; [apply Hw |].
  destruct (signingKey (getUnderlyingSigner this)).
  { apply emits_log_then; [apply Hw | apply emits_ret]. }
  destruct (provider (getUnderlyingSigner this)) as [p |];
    [| apply emits_log_then; [apply Hw | apply emits_ret]].
  repeat match goal with
         | |- emits _ _ (if ?b then _ else _) => destruct b
         end;
    (apply emits_log_then; [apply Hw | apply emits_ret]).
Qed.

(** X16: the probe returns [true] exactly for a signer without key material
    whose provider is a browser provider, or can [send] or [request], or
    that runs where [window.ethereum] is set; it returns [false] for every
    signer that holds a key and for every signer without provider. It
    writes two lines to the console and nothing else. *)
Theorem isMetaMaskSigner_decides (this : PDPAuthHelper) (t : Trace) :
  exists msg,
    isMetaMaskSigner this t
    = (Return (uses_agent this),
       t ++ [ console_log "[PDPAuthHelper] Checking signer type:";
              console_log msg ]).
Proof.
  unfold isMetaMaskSigner, uses_agent.
  destruct (signingKey (getUnderlyingSigner this));
    [eexists; cbv [bind emit ret orb andb negb]; rewrite <- app_assoc; reflexivity |].
  destruct (provider (getUnderlyingSigner this)) as [p |];
    [| eexists; cbv [bind emit ret orb andb negb]; rewrite <- app_assoc; reflexivity].
  destruct (bool_decide (is_Some (_eip1193Provider p)));
    [eexists; cbv [bind emit ret orb andb negb]; rewrite <- app_assoc; reflexivity |].
  destruct window_ethereum;
    [eexists; cbv [bind emit ret orb andb negb]; rewrite <- app_assoc; reflexivity |].
  destruct (bool_decide (is_Some (send p)));
    [eexists; cbv [bind emit ret orb andb negb]; rewrite <- app_assoc; reflexivity |].
  destruct (bool_decide (is_Some (request p)));
    eexists; cbv [bind emit ret orb andb negb]; rewrite <- app_assoc; reflexivity.
Qed.

(** The agent is asked once at most, with the document built from [types]
    and [value]. *)
Lemma signWithMetaMask_emits (this : PDPAuthHelper) (W : Event -> Prop)
  (types : Types) (value : JsValue) :
  (forall address,
     getAddress (signer this) = Return address ->
     let doc := {| types := ("EIP712Domain", EIP712Domain) :: types;
                   primaryType := find_primaryType (map fst types);
                   domain := this_domain this;
                   message := value |} in
     W (request_called "eth_signTypedData_v4" address doc)
     /\ W (send_called "eth_signTypedData_v4" address doc)) ->
  emits 1 W (signWithMetaMask this types value).
Proof.
  intros Hw. unfold signWithMetaMask.
  destruct (provider (signer this)) as [p |]; [| apply emits_throw].
  apply emits_bind_lift. intros address Haddr.
  destruct (Hw address Haddr) as [Hreq Hsend].
  assert (Hfallback :
    emits 1 W
      match send p with
      | Some send =>
          bind (emit (send_called "eth_signTypedData_v4" address
                        {| types := ("EIP712Domain", EIP712Domain) :: types;
                           primaryType := find_primaryType (map fst types);
                           domain := this_domain this;
                           message := value |}))
            (fun _ => lift (send "eth_signTypedData_v4" address
                        {| types := ("EIP712Domain", EIP712Domain) :: types;
                           primaryType := find_primaryType (map fst types);
                           domain := this_domain this;
                           message := value |}))
      | None => not_a_function "provider.send"
      end).
  { destruct (send p) as [snd |]; [| apply emits_throw].
    apply (emits_bind 1 0); [| intros; apply emits_lift | lia].
    apply emits_emit; [exact Hsend | simpl; lia]. }
  cbv zeta.
  destruct (match _eip1193Provider p with
            | Some p0 => p0
            | None => Some {| eip1193_request := request p |}
            end) as [[[req |]] |]; try exact Hfallback.
  apply (emits_bind 1 0); [| intros; apply emits_lift | lia].
  apply emits_emit; [exact Hreq | simpl; lia].
Qed.

Lemma call_signTypedData_emits (this : PDPAuthHelper) (W : Event -> Prop)
  (types : Types) (value : JsValue) :
  W (signTypedData_called (this_domain this) types value) ->
  emits 1 W (call_signTypedData this types value).
Proof.
  intros Hw. unfold call_signTypedData.
  apply (emits_bind 1 0); [| intros; apply emits_lift | lia].
  apply emits_emit; [exact Hw | simpl; lia].
Qed.

(** After the signature, nothing is written any more. *)
Lemma tail_emits (this : PDPAuthHelper) (W : Event -> Prop) (types : Types)
  (signature : string) (value : Result JsValue) :
  emits 0 W
    (bind (lift (Signature_from signature)) (fun sig =>
     bind (lift value) (fun value =>
     bind (lift (TypedDataEncoder_hash (this_domain this) types value))
       (fun signedData =>
     ret {| signature := signature; v := sig_v sig; r := sig_r sig;
            s := sig_s sig; signedData := signedData |})))).
Proof.
  apply emits_bind_lift. intros sig _.
  apply emits_bind_lift. intros val _.
  apply emits_bind_lift. intros digest _.
  apply emits_ret.
Qed.

Ltac silent_tail :=
  repeat (apply emits_bind_lift; intros ? _); apply emits_ret.

Ltac agent_events Htypes :=
  intros address Haddr; cbv zeta; unfold well_formed_event; simpl;
  rewrite Htypes; repeat split; assumption.

(** Every operation probes, asks once for a signature, and is silent
    afterwards. *)
Lemma sign_emits (this : PDPAuthHelper) (op : Operation) :
  emits 1 (well_formed_event this op) (sign this op).
Proof.
  assert (Hlog : forall msg, well_formed_event this op (console_log msg))
    by (intros; exact I).
  destruct op as [id payee md | id first pieces md | id ids | id]; unfold sign.
  - unfold signCreateDataSet. cbv zeta.
    apply (emits_bind 0 1); [now apply isMetaMaskSigner_emits | | lia].
    intros [|]; (apply (emits_bind 1 0); [| intros; silent_tail | lia]).
    + apply signWithMetaMask_emits. agent_events type_set_CreateDataSet.
    + apply emits_bind_lift. intros z Hz. apply call_signTypedData_emits.
      unfold well_formed_event, canonical_value, primaryType_of.
      rewrite type_set_CreateDataSet, (BigInt_integer_of _ _ Hz). auto.
  - unfold signAddPieces. cbv zeta.
    apply emits_bind_lift. intros [cids pms] Hbuilt.
    apply build_AddPieces_Return in Hbuilt as (bs & Hbs & Hlen & -> & ->).
    apply (emits_bind 0 1); [now apply isMetaMaskSigner_emits | | lia].
    intros [|]; (apply (emits_bind 1 0); [| intros; silent_tail | lia]).
    + apply signWithMetaMask_emits. agent_events type_set_AddPieces.
    + apply emits_bind_lift. intros z Hz. apply emits_bind_lift. intros f Hf.
      apply call_signTypedData_emits.
      unfold well_formed_event, canonical_value, primaryType_of.
      rewrite type_set_AddPieces, (BigInt_integer_of _ _ Hz),
        (BigInt_integer_of _ _ Hf), Hbs. simpl.
      rewrite <- of_Cid_bytes, <- of_PieceMetadata_imap. auto.
  - unfold signSchedulePieceRemovals.
    apply emits_bind_lift. intros zs Hzs.
    apply (emits_bind 0 1); [now apply isMetaMaskSigner_emits | | lia].
    intros [|]; (apply (emits_bind 1 0); [| intros; silent_tail | lia]).
    + apply signWithMetaMask_emits. agent_events type_set_SchedulePieceRemovals.
    + apply emits_bind_lift. intros z Hz. apply call_signTypedData_emits.
      unfold well_formed_event, canonical_value, primaryType_of.
      rewrite type_set_SchedulePieceRemovals, (BigInt_integer_of _ _ Hz),
        (map_BigInt_integers_of _ _ Hzs). auto.
  - unfold signDeleteDataSet.
    apply (emits_bind 0 1); [now apply isMetaMaskSigner_emits | | lia].
    intros [|]; (apply (emits_bind 1 0); [| intros; silent_tail | lia]).
    + apply signWithMetaMask_emits. agent_events type_set_DeleteDataSet.
    + apply emits_bind_lift. intros z Hz. apply call_signTypedData_emits.
      unfold well_formed_event, canonical_value, primaryType_of.
      rewrite type_set_DeleteDataSet, (BigInt_integer_of _ _ Hz). auto.
Qed.

(** X17: a signing operation, whether it returns or throws, only appends
    to the trace and asks for a signature at most once: one call of the
    key's [signTypedData], or one request to the agent, never both and
    never twice. *)
Theorem sign_asks_at_most_once (this : PDPAuthHelper) (op : Operation)
  (t t' : Trace) (r : Result AuthSignature) :
  sign this op t = (r, t') ->
  exists evs,
    t' = t ++ evs /\ (length (List.filter is_signing evs) <= 1)%nat.
Proof.
  intros Hrun. destruct (sign_emits this op _ _ _ Hrun) as (evs & -> & Hn & _).
  eauto.
Qed.

(** X18: what a signing operation asks to be signed. The key is only ever
    asked to sign the canonical value of the operation, under the helper's
    domain and the type set of the operation; the agent is only ever sent,
    with the method [eth_signTypedData_v4] and the address of the signer,
    a document with that domain, the type set preceded by [EIP712Domain],
    and the operation as its primary type. *)
Theorem sign_asks_for_the_operation (this : PDPAuthHelper) (op : Operation)
  (t t' : Trace) (r : Result AuthSignature) :
  sign this op t = (r, t') ->
  exists evs, t' = t ++ evs /\ Forall (well_formed_event this op) evs.
Proof.
  intros Hrun. destruct (sign_emits this op _ _ _ Hrun) as (evs & -> & _ & Hw).
  eauto.
Qed.

(** The probe of a signer that is fronted by an agent. *)
Lemma isMetaMaskSigner_agent (this : PDPAuthHelper) (t : Trace) :
  uses_agent this = true ->
  exists t', isMetaMaskSigner this t = (Return true, t').
Proof.
  unfold isMetaMaskSigner, uses_agent.
  destruct (signingKey (getUnderlyingSigner this)); [discriminate |].
  destruct (provider (getUnderlyingSigner this)) as [p |]; [| discriminate].
  destruct (bool_decide (is_Some (_eip1193Provider p))); [eauto |].
  destruct window_ethereum; [eauto |].
  destruct (bool_decide (is_Some (send p))); [eauto |].
  destruct (bool_decide (is_Some (request p))); [eauto | discriminate].
Qed.

(** X19: an agent that approves is enough. For a signer fronted by a
    browser provider whose agent answers [sg], a valid operation returns
    [sg] as signature together with the digest of the canonical value,
    although the agent was shown the display form of the value. *)
Theorem sign_agent_returns (this : PDPAuthHelper) (op : Operation) (t : Trace)
  (p : Provider) (req : Rpc) (address : string)
  (value : JsValue) (sg : string) (sig : Signature) (digest : string) :
  uses_agent this = true ->
  provider (signer this) = Some p ->
  _eip1193Provider p = Some (Some {| eip1193_request := Some req |}) ->
  getAddress (signer this) = Return address ->
  (forall doc, req "eth_signTypedData_v4" address doc = Return sg) ->
  valid_metadata op ->
  canonical_value op = Some value ->
  Signature_from sg = Return sig ->
  TypedDataEncoder_hash (this_domain this) (type_set (primaryType_of op)) value
  = Return digest ->
  exists t',
    sign this op t
    = (Return {| signature := sg; v := sig_v sig; r := sig_r sig; s := sig_s sig;
                 signedData := digest |}, t').
Proof.
  intros Hagent Hprov Heip Haddr Hreq Hvalid Hvalue Hfrom Hhash.
  destruct op as [id payee md | id first pieces md | id ids | id];
    unfold canonical_value in Hvalue; simpl primaryType_of in *;
    unfold sign.
  - destruct (integer_of id) as [z |] eqn:Hid; [| discriminate].
    simpl in Hvalue. injection Hvalue as <-.
    apply integer_of_BigInt in Hid. rewrite type_set_CreateDataSet in *.
    unfold signCreateDataSet, bind.
    destruct (isMetaMaskSigner_agent this t Hagent) as [t1 ->].
    unfold signWithMetaMask, bind, emit, lift. rewrite Hprov, Haddr, Heip.
    rewrite Hreq, Hfrom, Hid, Hhash. eauto.
  - destruct (integer_of id) as [z |] eqn:Hid; [| discriminate].
    destruct (integer_of first) as [f |] eqn:Hfirst; [| discriminate].
    destruct (all_bytes_of pieces) as [bs |] eqn:Hbs; [| discriminate].
    simpl in Hvalue. injection Hvalue as <-.
    apply integer_of_BigInt in Hid, Hfirst. rewrite type_set_AddPieces in *.
    rewrite <- of_Cid_bytes, <- of_PieceMetadata_imap in Hhash.
    unfold signAddPieces, bind, lift at 1.
    rewrite (build_AddPieces_total _ _ _ Hvalid Hbs).
    destruct (isMetaMaskSigner_agent this t Hagent) as [t1 ->].
    unfold signWithMetaMask, bind, emit, lift. rewrite Hprov, Haddr, Heip.
    cbn [fst snd]. rewrite Hreq, Hfrom, Hid, Hfirst, Hhash. eauto.
  - destruct (integer_of id) as [z |] eqn:Hid; [| discriminate].
    destruct (integers_of ids) as [zs |] eqn:Hids; [| discriminate].
    simpl in Hvalue. injection Hvalue as <-.
    apply integer_of_BigInt in Hid. apply integers_of_map_BigInt in Hids.
    rewrite type_set_SchedulePieceRemovals in *.
    unfold signSchedulePieceRemovals, bind, lift at 1. rewrite Hids.
    destruct (isMetaMaskSigner_agent this t Hagent) as [t1 ->].
    unfold signWithMetaMask, bind, emit, lift. rewrite Hprov, Haddr, Heip.
    rewrite Hreq, Hfrom, Hid, Hhash. eauto.
  - destruct (integer_of id) as [z |] eqn:Hid; [| discriminate].
    simpl in Hvalue. injection Hvalue as <-.
    apply integer_of_BigInt in Hid. rewrite type_set_DeleteDataSet in *.
    unfold signDeleteDataSet, bind.
    destruct (isMetaMaskSigner_agent this t Hagent) as [t1 ->].
    unfold signWithMetaMask, bind, emit, lift. rewrite Hprov, Haddr, Heip.
    rewrite Hreq, Hfrom, Hid, Hhash. eauto.
Qed.

End InteractionFacts.

(** ** The properties on concrete collaborators *)

Section MoreRuns.
Import Auth Spec Interaction SessionKey Refresh Scenario Scenario2.

Lemma hashes0_NoDup (answer : list Call3 -> list Result3) :
  NoDup (@PDP_PERMISSIONS (chain_answering answer)).
Proof.
  repeat (apply NoDup_cons_2;
          [intros Hin;
           repeat (apply elem_of_cons in Hin as [Hin | Hin]; [discriminate |]);
           now apply elem_of_nil in Hin |]).
  apply NoDup_nil_2.
Qed.

(** The session of the scenarios is answered by their chains. *)
Ltac session_answered :=
  exists "calibration", "0xf39f", "0x7099", "0x97e9"; repeat split.

Lemma fetchExpiries_keys_witness :
  @fetchExpiries healthy_chain session (Some [ "0xd4"; "0xd4" ])
  = Return (<[ "0xa2" := 42%Z ]> (<[ "0xc1" := 42%Z ]> ∅))
  /\ forall k,
       is_Some ((<[ "0xa2" := 42%Z ]> (<[ "0xc1" := 42%Z ]> ∅) : gmap string Z) !! k)
       <-> exists j, (j < 2)%nat /\ k = key_at (@PDP_PERMISSIONS healthy_chain) j.
Proof.
  split; [vm_compute; reflexivity |].
  apply (@fetchExpiries_keys healthy_chain session (Some [ "0xd4"; "0xd4" ])).
  vm_compute. reflexivity.
Defined.

Lemma fetchExpiries_positional_witness :
  NoDup (@PDP_PERMISSIONS healthy_chain)
  /\ (length [ "0xd4"; "0x53" ] <= 4)%nat
  /\ @Refresh.answered healthy_chain session [ "0xd4"; "0x53" ]
       [ answered Byte.x2a; answered Byte.x2a ]
  /\ @fetchExpiries healthy_chain session (Some [ "0xd4"; "0x53" ])
     = Return (<[ "0xa2" := 42%Z ]> (<[ "0xc1" := 42%Z ]> ∅))
  /\ forall j, (j < 2)%nat ->
       exists r x k,
         [ answered Byte.x2a; answered Byte.x2a ] !! j = Some r
         /\ @decodeFunctionResult healthy_chain "authorizationExpiry" (returnData r)
            = Return x
         /\ @PDP_PERMISSIONS healthy_chain !! j = Some k
         /\ (<[ "0xa2" := 42%Z ]> (<[ "0xc1" := 42%Z ]> ∅) : gmap string Z) !! k
            = Some x.
Proof.
  split; [apply hashes0_NoDup |]. split; [simpl; lia |].
  split; [session_answered |].
  split; [vm_compute; reflexivity |].
  apply (@fetchExpiries_positional healthy_chain session [ "0xd4"; "0x53" ]
           [ answered Byte.x2a; answered Byte.x2a ]);
    [apply hashes0_NoDup | simpl; lia
     | session_answered | vm_compute; reflexivity].
Defined.

Lemma fetchExpiries_default_witness :
  NoDup (@PDP_PERMISSIONS healthy_chain)
  /\ @Refresh.answered healthy_chain session (@PDP_PERMISSIONS healthy_chain) four_answers
  /\ (forall j, (j < 4)%nat ->
        exists r x, four_answers !! j = Some r
          /\ @decodeFunctionResult healthy_chain "authorizationExpiry" (returnData r)
             = Return x)
  /\ exists m,
       @fetchExpiries healthy_chain session None = Return m
       /\ forall j permission r x,
            @PDP_PERMISSIONS healthy_chain !! j = Some permission ->
            four_answers !! j = Some r ->
            @decodeFunctionResult healthy_chain "authorizationExpiry" (returnData r)
            = Return x ->
            m !! permission = Some x.
Proof.
  assert (Hall : forall j, (j < 4)%nat ->
            exists r x, four_answers !! j = Some r
              /\ @decodeFunctionResult healthy_chain "authorizationExpiry"
                   (returnData r) = Return x).
  { intros j Hj. exists (answered Byte.x2a), 42%Z.
    destruct j as [| [| [| [| j]]]]; try lia; split; reflexivity. }
  split; [apply hashes0_NoDup |].
  split; [session_answered |].
  split; [exact Hall |].
  apply (@fetchExpiries_default healthy_chain session four_answers);
    [apply hashes0_NoDup
     | session_answered | exact Hall].
Defined.

Lemma fetchExpiries_decode_failure_witness :
  @Refresh.answered one_failing_chain session (@PDP_PERMISSIONS one_failing_chain)
    one_failing_answers
  /\ (1 < length (@PDP_PERMISSIONS one_failing_chain))%nat
  /\ one_failing_answers !! 1%nat = Some reverted
  /\ @decodeFunctionResult one_failing_chain "authorizationExpiry"
       (returnData reverted) = Throw (Error "could not decode result data")
  /\ @fetchExpiries one_failing_chain session
       (Some (@PDP_PERMISSIONS one_failing_chain))
     = Throw (Error "could not decode result data").
Proof.
  split; [session_answered |].
  split; [simpl; lia |]. split; [reflexivity |]. split; [reflexivity |].
  apply (@fetchExpiries_decode_failure one_failing_chain session
           (@PDP_PERMISSIONS one_failing_chain) one_failing_answers 1 reverted);
    [session_answered
     | simpl; lia | reflexivity | reflexivity |].
  intros k Hk. exists (answered Byte.x0a), 10%Z.
  destruct k as [| k]; [split; reflexivity | lia].
Defined.


Lemma fetchExpiries_ignores_success_witness :
  (forall r, returnData (mark_failed r) = returnData r)
  /\ @fetchExpiries (with_results mark_failed healthy_chain) session None
     = @fetchExpiries healthy_chain session None.
Proof.
  split; [reflexivity |].
  apply (fetchExpiries_ignores_success healthy_chain mark_failed session None).
  reflexivity.
Defined.

Lemma rev0_fetchExpiries_stores_witness :
  NoDup (@PDP_PERMISSIONS healthy_chain)
  /\ @Refresh.answered healthy_chain (KeyRev0.parties cached)
       (@PDP_PERMISSIONS healthy_chain) four_answers
  /\ @KeyRev0.fetchExpiries healthy_chain (@PDP_PERMISSIONS healthy_chain) cached
     = (Return tt,
        snd (@KeyRev0.fetchExpiries healthy_chain (@PDP_PERMISSIONS healthy_chain)
               cached))
  /\ ((forall j permission,
         @PDP_PERMISSIONS healthy_chain !! j = Some permission ->
         exists r x,
           four_answers !! j = Some r
           /\ @decodeFunctionResult healthy_chain "authorizationExpiry" (returnData r)
              = Return x
           /\ KeyRev0.expiries
                (snd (@KeyRev0.fetchExpiries healthy_chain
                        (@PDP_PERMISSIONS healthy_chain) cached)) !! permission
              = Some (Some x))
      /\ (forall k, k ∉ @PDP_PERMISSIONS healthy_chain ->
            KeyRev0.expiries
              (snd (@KeyRev0.fetchExpiries healthy_chain
                      (@PDP_PERMISSIONS healthy_chain) cached)) !! k
            = KeyRev0.expiries cached !! k)).
Proof.
  split; [apply hashes0_NoDup |]. split; [session_answered |].
  split; [vm_compute; reflexivity |].
  apply (@rev0_fetchExpiries_stores healthy_chain (@PDP_PERMISSIONS healthy_chain)
           cached _ four_answers);
    [apply hashes0_NoDup | session_answered | vm_compute; reflexivity].
Defined.

Lemma rev0_fetchExpiries_partial_witness :
  NoDup (@PDP_PERMISSIONS one_failing_chain)
  /\ @Refresh.answered one_failing_chain (KeyRev0.parties cached)
       (@PDP_PERMISSIONS one_failing_chain) one_failing_answers
  /\ one_failing_answers !! 1%nat = Some reverted
  /\ @decodeFunctionResult one_failing_chain "authorizationExpiry"
       (returnData reverted) = Throw (Error "could not decode result data")
  /\ exists this',
       @KeyRev0.fetchExpiries one_failing_chain (@PDP_PERMISSIONS one_failing_chain)
         cached
       = (Throw (Error "could not decode result data"), this')
       /\ (forall i permission, (i < 1)%nat ->
             @PDP_PERMISSIONS one_failing_chain !! i = Some permission ->
             exists ri x,
               one_failing_answers !! i = Some ri
               /\ @decodeFunctionResult one_failing_chain "authorizationExpiry"
                    (returnData ri) = Return x
               /\ KeyRev0.expiries this' !! permission = Some (Some x))
       /\ (forall i permission, (1 <= i)%nat ->
             @PDP_PERMISSIONS one_failing_chain !! i = Some permission ->
             KeyRev0.expiries this' !! permission
             = KeyRev0.expiries cached !! permission).
Proof.
  split; [apply hashes0_NoDup |]. split; [session_answered |].
  split; [reflexivity |]. split; [reflexivity |].
  apply (@rev0_fetchExpiries_partial one_failing_chain
           (@PDP_PERMISSIONS one_failing_chain) cached one_failing_answers
           1 reverted);
    [apply hashes0_NoDup | session_answered | simpl; lia | reflexivity
     | reflexivity |].
  intros i Hi. exists (answered Byte.x0a), 10%Z.
  destruct i as [| i]; [split; reflexivity | lia].
Defined.


Lemma sign_asks_at_most_once_witness :
  @sign ethers0 agent_helper (Spec.DeleteDataSet (OfNumber NonInteger)) []
  = (Throw (RangeError "The number cannot be converted to a BigInt because it is not an integer"),
     snd (@sign ethers0 agent_helper (Spec.DeleteDataSet (OfNumber NonInteger)) []))
  /\ exists evs,
       snd (@sign ethers0 agent_helper (Spec.DeleteDataSet (OfNumber NonInteger)) [])
       = [] ++ evs
       /\ (length (List.filter is_signing evs) <= 1)%nat.
Proof.
  split; [vm_compute; reflexivity |].
  apply (@sign_asks_at_most_once ethers0 agent_helper
           (Spec.DeleteDataSet (OfNumber NonInteger)) [] _
           (Throw (RangeError "The number cannot be converted to a BigInt because it is not an integer"))).
  vm_compute. reflexivity.
Defined.

Lemma sign_asks_for_the_operation_witness :
  @sign ethers0 managed_helper
    (Spec.SchedulePieceRemovals (OfBigint 3) [ OfNumber (Integer 1); OfBigint 2 ]) []
  = (fst (@sign ethers0 managed_helper
            (Spec.SchedulePieceRemovals (OfBigint 3) [ OfNumber (Integer 1); OfBigint 2 ]) []),
     [ console_log "[PDPAuthHelper] Checking signer type:";
       console_log "[PDPAuthHelper] Detected Wallet (has signingKey) - using local signing";
       signTypedData_called (this_domain managed_helper) types_SchedulePieceRemovals
         (VObject [ ("clientDataSetId", VBigint 3);
                    ("pieceIds", VArray [ VBigint 1; VBigint 2 ]) ]) ])
  /\ exists evs,
       [ console_log "[PDPAuthHelper] Checking signer type:";
         console_log "[PDPAuthHelper] Detected Wallet (has signingKey) - using local signing";
         signTypedData_called (this_domain managed_helper) types_SchedulePieceRemovals
           (VObject [ ("clientDataSetId", VBigint 3);
                      ("pieceIds", VArray [ VBigint 1; VBigint 2 ]) ]) ]
       = [] ++ evs
       /\ Forall (@well_formed_event ethers0 managed_helper
                    (Spec.SchedulePieceRemovals (OfBigint 3)
                       [ OfNumber (Integer 1); OfBigint 2 ])) evs.
Proof.
  split; [vm_compute; reflexivity |].
  apply (@sign_asks_for_the_operation ethers0 managed_helper
           (Spec.SchedulePieceRemovals (OfBigint 3) [ OfNumber (Integer 1); OfBigint 2 ])
           [] _
           (fst (@sign ethers0 managed_helper
                   (Spec.SchedulePieceRemovals (OfBigint 3)
                      [ OfNumber (Integer 1); OfBigint 2 ]) []))).
  vm_compute. reflexivity.
Defined.

Lemma sign_agent_returns_witness :
  @uses_agent ethers0 agent_helper = true
  /\ provider (signer agent_helper) = Some browser_provider
  /\ valid_metadata (Spec.CreateDataSet (OfNumber (Integer 0)) "0xabcd" None)
  /\ exists t',
       @sign ethers0 agent_helper
         (Spec.CreateDataSet (OfNumber (Integer 0)) "0xabcd" None) []
       = (Return {| signature := "0xagent"; v := 27; r := "r:0xagent";
                    s := "s:0xagent"; signedData := "digest:CreateDataSet" |}, t').
Proof.
  split; [reflexivity |]. split; [reflexivity |]. split; [exact I |].
  apply (@sign_agent_returns ethers0 agent_helper
           (Spec.CreateDataSet (OfNumber (Integer 0)) "0xabcd" None) []
           browser_provider agent "0x7099"
           (VObject [ ("clientDataSetId", VBigint 0);
                      ("metadata", VArray []);
                      ("payee", VString "0xabcd") ])
           "0xagent"
           {| sig_v := 27; sig_r := "r:0xagent"; sig_s := "s:0xagent" |}
           "digest:CreateDataSet");
    first [reflexivity | exact I | intros doc; reflexivity].
Defined.

Lemma sign_local_key_returns_witness :
  signingKey (getUnderlyingSigner managed_helper) = true
  /\ valid_metadata (Spec.AddPieces (OfBigint 0) (OfBigint 1)
                       [ PieceString a_piece ] (Some [ [] ]))
  /\ exists t',
       @sign ethers0 managed_helper
         (Spec.AddPieces (OfBigint 0) (OfBigint 1) [ PieceString a_piece ] (Some [ [] ])) []
       = (Return {| signature := "0xlocal"; v := 27; r := "r:0xlocal";
                    s := "s:0xlocal"; signedData := "digest:AddPieces" |}, t').
Proof.
  split; [reflexivity |]. split; [right; reflexivity |].
  apply (@sign_local_key_returns ethers0 managed_helper
           (Spec.AddPieces (OfBigint 0) (OfBigint 1) [ PieceString a_piece ] (Some [ [] ]))
           []
           (VObject [ ("clientDataSetId", VBigint 0);
                      ("firstAdded", VBigint 1);
                      ("pieceData",
                        VArray [ VObject [ ("data", VBytes [Byte.x01; Byte.x55]) ] ]);
                      ("pieceMetadata",
                        VArray [ @value_PieceMetadata 0 [] ]) ])
           "0xlocal"
           {| sig_v := 27; sig_r := "r:0xlocal"; sig_s := "s:0xlocal" |}
           "digest:AddPieces");
    first [reflexivity | right; reflexivity].
Defined.

End MoreRuns.
